(** * Study-Assistant: the streaming-render pipeline of the chat UI

    A shallow embedding of [streamResponse] and [removeTypingIndicator]
    (the chat script of the repository), together with the platform
    pieces they drive: the byte stream of a fetch [Response], the
    browser's [TextDecoder] and the message element of the document.

    JavaScript strings are sequences of UTF-16 code units, bytes are
    integers in [0, 255], and the document is a finite map from element
    ids to elements. *)

From Stdlib Require Import ZArith QArith Qcanon Lia.
From stdpp Require Import base list gmap strings pretty.

Local Open Scope Z_scope.

(* ===================================================================== *)
(** * Part I: definitions                                                  *)
(* ===================================================================== *)

(** ** JavaScript values used by the script *)

Module Js.

(** A JavaScript string: its UTF-16 code units. *)
Abbreviation jsstring := (list Z).

(** A byte sequence ([Uint8Array]). *)
Abbreviation bytes := (list Z).

(** An ASCII string literal of the script as a JavaScript string. *)
Definition lit (s : string) : jsstring :=
  map (fun a => Z.of_N (Ascii.N_of_ascii a)) (String.list_ascii_of_string s).

(** An [Error] object, as thrown by a failing [read()]: fetch errors its
    body stream with a [TypeError] or an [AbortError], both of which
    carry a string [message] (possibly empty). *)
Record JsError := mkError { message : jsstring }.

(** [a || b] on strings: the empty string is falsy. *)
Definition or_else (a b : jsstring) : jsstring :=
  match a with
  | [] => b
  | _ :: _ => a
  end.

(** How a promise settles. *)
Inductive settled (A : Type) :=
| Fulfilled (value : A)
| Rejected (reason : JsError).
Arguments Fulfilled {A} value.
Arguments Rejected {A} reason.

(** Completion of a synchronous call. *)
Inductive completion (A : Type) :=
| Normal (value : A)
| Throw (exn : string).
Arguments Normal {A} value.
Arguments Throw {A} exn.

End Js.
Import Js.

(** ** The platform's [TextDecoder]

    [new TextDecoder()] is a browser built-in: a UTF-8 decoder in
    replacement error mode that strips a leading byte order mark.  The
    definitions below follow the Encoding Standard step by step (the
    UTF-8 decoder's handler, [decode] with its [stream] option and the
    serialisation of the decoded scalar values). *)

Module Encoding.

Record utf8_decoder := Utf8Decoder {
  code_point : Z;
  bytes_seen : Z;
  bytes_needed : Z;
  lower_boundary : Z;
  upper_boundary : Z
}.

Definition utf8_initial : utf8_decoder := Utf8Decoder 0 0 0 0x80 0xBF.

Inductive handler_result :=
| Continue
| Emit (cp : Z)
| DecodeError.

Definition in_range (lo hi b : Z) : bool := (lo <=? b) && (b <=? hi).

(** The handler on a byte.  The boolean tells whether the byte was
    restored to the queue (it is then read again). *)
Definition utf8_handler (d : utf8_decoder) (byte : Z)
  : utf8_decoder * handler_result * bool :=
  if bytes_needed d =? 0 then
    if in_range 0x00 0x7F byte then (d, Emit byte, false)
    else if in_range 0xC2 0xDF byte then
      (Utf8Decoder (Z.land byte 0x1F) (bytes_seen d) 1
                   (lower_boundary d) (upper_boundary d), Continue, false)
    else if in_range 0xE0 0xEF byte then
      let lower := if byte =? 0xE0 then 0xA0 else lower_boundary d in
      let upper := if byte =? 0xED then 0x9F else upper_boundary d in
      (Utf8Decoder (Z.land byte 0xF) (bytes_seen d) 2 lower upper,
       Continue, false)
    else if in_range 0xF0 0xF4 byte then
      let lower := if byte =? 0xF0 then 0x90 else lower_boundary d in
      let upper := if byte =? 0xF4 then 0x8F else upper_boundary d in
      (Utf8Decoder (Z.land byte 0x7) (bytes_seen d) 3 lower upper,
       Continue, false)
    else (d, DecodeError, false)
  else if negb (in_range (lower_boundary d) (upper_boundary d) byte) then
    (utf8_initial, DecodeError, true)
  else
    let cp := Z.lor (Z.shiftl (code_point d) 6) (Z.land byte 0x3F) in
    let seen := bytes_seen d + 1 in
    if seen =? bytes_needed d then (utf8_initial, Emit cp, false)
    else (Utf8Decoder cp seen (bytes_needed d) 0x80 0xBF, Continue, false).

(** The handler at end-of-queue: a pending sequence is an error. *)
Definition utf8_end_of_queue (d : utf8_decoder)
  : utf8_decoder * handler_result :=
  if bytes_needed d =? 0 then (d, Continue)
  else (Utf8Decoder (code_point d) (bytes_seen d) 0
                    (lower_boundary d) (upper_boundary d), DecodeError).

(** Replacement error mode: an error pushes U+FFFD. *)
Definition pushed (r : handler_result) : list Z :=
  match r with
  | Continue => []
  | Emit cp => [cp]
  | DecodeError => [0xFFFD]
  end.

(** Processing one byte of the queue, re-reading it when the handler
    restored it. *)
Definition process_byte (d : utf8_decoder) (byte : Z)
  : utf8_decoder * list Z :=
  match utf8_handler d byte with
  | (d1, r1, true) =>
      let '(d2, r2, _) := utf8_handler d1 byte in
      (d2, pushed r1 ++ pushed r2)
  | (d1, r1, false) => (d1, pushed r1)
  end.

(** Processing the queue up to end-of-queue (excluded). *)
Fixpoint process_queue (d : utf8_decoder) (queue : bytes)
  : utf8_decoder * list Z :=
  match queue with
  | [] => (d, [])
  | byte :: rest =>
      let '(d1, out1) := process_byte d byte in
      let '(d2, out2) := process_queue d1 rest in
      (d2, out1 ++ out2)
  end.

(** A scalar value appended to a JavaScript string. *)
Definition utf16_units (cp : Z) : jsstring :=
  if cp <? 0x10000 then [cp]
  else [0xD800 + Z.shiftr (cp - 0x10000) 10;
        0xDC00 + Z.land (cp - 0x10000) 0x3FF].

Definition utf16_text (scalars : list Z) : jsstring :=
  flat_map utf16_units scalars.

(** Serialising the decoded scalar values: the first one ever
    serialised sets [BOM seen] and is dropped when it is U+FEFF. *)
Definition serialize (bom_seen : bool) (output : list Z) : bool * jsstring :=
  match output with
  | [] => (bom_seen, [])
  | item :: rest =>
      if bom_seen then (true, utf16_text output)
      else (true,
            (if item =? 0xFEFF then [] else utf16_units item)
              ++ utf16_text rest)
  end.

Record TextDecoder := mkTextDecoder {
  utf8_state : utf8_decoder;
  BOM_seen : bool;
  do_not_flush : bool
}.

(** [new TextDecoder()] *)
Definition new_TextDecoder : TextDecoder :=
  mkTextDecoder utf8_initial false false.

(** [td.decode(input, { stream })]: the decoder after the call and the
    string it returns. *)
Definition decode (td : TextDecoder) (input : bytes) (stream : bool)
  : TextDecoder * jsstring :=
  let '(d0, bom0) :=
    if do_not_flush td then (utf8_state td, BOM_seen td)
    else (utf8_initial, false) in
  let '(d1, out1) := process_queue d0 input in
  let '(d2, out2) :=
    if stream then (d1, [])
    else let '(d, r) := utf8_end_of_queue d1 in (d, pushed r) in
  let '(bom1, text) := serialize bom0 (out1 ++ out2) in
  (mkTextDecoder d2 bom1 stream, text).

End Encoding.
Import Encoding.

(** ** The document *)

Module Dom.

(** A [<code>] element inside a [<pre>]: what [hljs.highlightElement]
    reads and writes. *)
Record code_element := mkCode {
  className : jsstring;
  innerHTML : jsstring;
  data_highlighted : bool
}.

(** The child nodes of a message's content: the code blocks that the
    selector ['pre code'] matches, and everything else. *)
Inductive node :=
| PreCode (block : code_element)
| Markup (html : jsstring).

Definition content := list node.

(** A message element; [message_content] is what
    [querySelector('.message-content')] finds in it. *)
Record element := mkElement {
  message_content : option content
}.

(** [contentDiv.innerHTML = html] *)
Definition set_content (el : element) (html : content) : element :=
  match message_content el with
  | Some _ => mkElement (Some html)
  | None => el
  end.

End Dom.
Import Dom.

(** ** The response body *)

Inductive stream_end :=
| Closed
| Errored (error : JsError).

(** The reads of a body stream: the chunks it delivers, in order, and how
    it ends ([done], or a rejected [read()]). *)
Record ReadableStream := mkStream {
  chunks : list bytes;
  ending : stream_end
}.

Record Response := mkResponse {
  body : option ReadableStream
}.

(** ** [streamResponse]

    The call is followed from its first [read()] to the settling of its
    promise, for a body stream that closes or fails after finitely many
    chunks (on a stream that does neither, the promise stays pending).
    [md.render] and [hljs.highlightElement] belong to markdown-it and
    highlight.js; they are parameters here, taken to return normally.
    The loop gives way to other tasks at each [await]; no other code is
    interleaved here, so the message element changes only by the loop's
    own assignments. *)

Section StreamingRenderer.

(** [md.render(text)] assigned to [innerHTML]: the nodes markdown-it's
    output parses to. *)
Variable md_render : jsstring -> content.

(** [hljs.highlightElement], when highlight.js is loaded
    ([typeof hljs !== 'undefined']). *)
Variable hljs : option (code_element -> code_element).

(** [querySelectorAll('pre code').forEach(block => highlightElement(block))] *)
Definition highlight_blocks (highlightElement : code_element -> code_element)
    (c : content) : content :=
  map (fun n => match n with
                | PreCode block => PreCode (highlightElement block)
                | Markup html => Markup html
                end) c.

Definition highlight_step (c : content) : content :=
  match hljs with
  | Some highlightElement => highlight_blocks highlightElement c
  | None => c
  end.

(** What one pass of the loop body leaves in the content div. *)
Definition rendered (fullMessage : jsstring) : content :=
  highlight_step (md_render fullMessage).

Definition update_message (messageElement : option element)
    (fullMessage : jsstring) : option element :=
  match messageElement with
  | Some el => Some (set_content el (rendered fullMessage))
  | None => None
  end.

(** The variables of one call. *)
Record session := mkSession {
  decoder : TextDecoder;
  fullMessage : jsstring;
  messageElement : option element
}.

(** The loop body, for a read that delivered [value]: decode in
    streaming mode, append, then render the whole text into the target. *)
Definition on_chunk (s : session) (value : bytes) : session :=
  let '(td, chunk) := decode (decoder s) value true in
  let text := fullMessage s ++ chunk in
  mkSession td text (update_message (messageElement s) text).

(** The [while] loop over the chunks delivered before the stream ends. *)
Definition read_loop (s : session) (values : list bytes) : session :=
  fold_left on_chunk values s.

(** The text appended by the [catch] block. *)
Definition annotation (error : JsError) : jsstring :=
  [10; 10] ++ lit "**Error during streaming:** "
    ++ or_else (message error) (lit "Connection interrupted.").

(** The variables as initialised before the loop. *)
Definition start (messageId : string) (document : gmap string element)
  : session :=
  mkSession new_TextDecoder [] (document !! messageId).

(** The document holds the element the loop assigned to. *)
Definition write_back (messageId : string) (s : session)
    (document : gmap string element) : gmap string element :=
  match messageElement s with
  | Some el => <[messageId := el]> document
  | None => document
  end.

(** [response.body.getReader()] on a response without a body: the
    [TypeError] of reading a property of [null].  Its message is the
    engine's; it is given in V8's words, as are the other errors of this
    kind below. *)
Definition body_is_null : JsError :=
  mkError (lit "Cannot read properties of null (reading 'getReader')").

(** The promise returned by [streamResponse(response, messageId)] and
    the document it leaves.  A stream that closes ends the loop with
    [break]; a failed read is caught, and the [catch] block appends the
    annotation to the text and does nothing else. *)
Definition streamResponse (response : Response) (messageId : string)
    (document : gmap string element)
  : settled jsstring * gmap string element :=
  match body response with
  | None => (Rejected body_is_null, document)
  | Some stream =>
      let s := read_loop (start messageId document) (chunks stream) in
      let text :=
        match ending stream with
        | Closed => fullMessage s
        | Errored error => fullMessage s ++ annotation error
        end in
      (Fulfilled text, write_back messageId s document)
  end.

(** *** Observations of a run *)

(** The sessions after each delivered chunk. *)
Fixpoint trace (s : session) (values : list bytes) : list session :=
  match values with
  | [] => []
  | value :: rest => let s' := on_chunk s value in s' :: trace s' rest
  end.

Definition displayed (s : session) : option content :=
  match messageElement s with
  | Some el => message_content el
  | None => None
  end.

(** The successive contents of the target, one per chunk. *)
Definition renders (s : session) (values : list bytes) : list content :=
  omap displayed (trace s values).

(** The successive values of [fullMessage]: initially, after each
    chunk, and after the [catch] block when a read failed. *)
Definition fullMessage_history (stream : ReadableStream) (s : session)
  : list jsstring :=
  let states := trace s (chunks stream) in
  let texts := fullMessage s :: (fullMessage <$> states) in
  match ending stream with
  | Closed => texts
  | Errored error =>
      texts ++ [fullMessage (read_loop s (chunks stream)) ++ annotation error]
  end.

End StreamingRenderer.

(** The strings returned by the successive [decode] calls of a run. *)
Fixpoint decoded_chunks (td : TextDecoder) (values : list bytes)
  : list jsstring :=
  match values with
  | [] => []
  | value :: rest =>
      let '(td', chunk) := decode td value true in
      chunk :: decoded_chunks td' rest
  end.

(** ** [removeTypingIndicator] *)

Definition TYPING_INDICATOR_ID : string := "typing-indicator".

(** The identifiers declared at the top level of the script.  (The
    browser's own globals are left out; none of them, and no element id
    the script creates, is spelled [typing_Div].) *)
Definition script_globals : list string :=
  [ "uploadedDocuments"; "selectedDepartment"; "chatHistory"; "questionCount";
    "builtInResources"; "MARKDOWN_OPTIONS"; "md"; "TYPING_DELAY";
    "TYPING_INDICATOR_ID"; "chatContainer"; "addChatMessage";
    "showTypingIndicator"; "removeTypingIndicator"; "streamResponse";
    "departmentResources"; "uploadZone"; "fileInput"; "uploadedFilesList";
    "libraryFilesList"; "docCountSpan"; "questionCountSpan";
    "uploadStatusDiv"; "libraryStatsDiv"; "chatHistoryDiv"; "questionInput";
    "resourceCategoriesDiv"; "progressBar"; "progressFill";
    "setupEventListeners"; "processFiles"; "displayUploadedFile";
    "removeFile"; "clearAllFiles"; "updateDocumentCount";
    "updateLibraryStats"; "selectDepartment"; "displayBuiltInResources";
    "simulateResourceLoad"; "askQuestion"; "generateSummary";
    "generateQuestionsForDocument"; "clearChat"; "handleSaveChat";
    "deleteSavedItem"; "loadSavedItems" ]%string.

(** What an identifier in scope is bound to: the element with a given id,
    or a value that is not an element. *)
Inductive binding :=
| BoundElement (id : string)
| BoundOther.

Definition global_scope : gmap string binding :=
  list_to_map (map (fun name => (name, BoundOther)) script_globals).

(** Evaluating [name.remove()] in a scope. *)
Definition call_remove (scope : gmap string binding) (name : string)
    (document : gmap string element)
  : completion unit * gmap string element :=
  match scope !! name with
  | Some (BoundElement id) => (Normal (), delete id document)
  | Some BoundOther =>
      (Throw ("TypeError: " +:+ name +:+ ".remove is not a function"), document)
  | None => (Throw ("ReferenceError: " +:+ name +:+ " is not defined"), document)
  end.

(** The body declares [typingDiv], tests it, and calls [remove] on
    [typing_Div]. *)
Definition removeTypingIndicator (document : gmap string element)
  : completion unit * gmap string element :=
  let typingDiv := document !! TYPING_INDICATOR_ID in
  let scope := <["typingDiv" := BoundElement TYPING_INDICATOR_ID]> global_scope in
  match typingDiv with
  | Some _ => call_remove scope "typing_Div" document
  | None => (Normal (), document)
  end.

(** ** Text and its UTF-8 encoding, for stating the properties *)

Definition scalar_value (cp : Z) : Prop :=
  0 <= cp <= 0x10FFFF /\ ~ (0xD800 <= cp <= 0xDFFF).

(** The UTF-8 encoding of a scalar value. *)
Definition utf8_encode (cp : Z) : bytes :=
  if cp <=? 0x7F then [cp]
  else if cp <=? 0x7FF then
    [Z.shiftr cp 6 + 0xC0; Z.lor 0x80 (Z.land cp 0x3F)]
  else if cp <=? 0xFFFF then
    [Z.shiftr cp 12 + 0xE0;
     Z.lor 0x80 (Z.land (Z.shiftr cp 6) 0x3F);
     Z.lor 0x80 (Z.land cp 0x3F)]
  else
    [Z.shiftr cp 18 + 0xF0;
     Z.lor 0x80 (Z.land (Z.shiftr cp 12) 0x3F);
     Z.lor 0x80 (Z.land (Z.shiftr cp 6) 0x3F);
     Z.lor 0x80 (Z.land cp 0x3F)].

Definition utf8_encode_text (scalars : list Z) : bytes :=
  flat_map utf8_encode scalars.

(** The text a decoder hands out for a sequence of scalar values: a
    leading U+FEFF is not part of it. *)
Definition strip_bom (scalars : list Z) : list Z :=
  match scalars with
  | [] => []
  | item :: rest => if item =? 0xFEFF then rest else scalars
  end.

(** The decoder state a streaming call starts from. *)
Definition resumed (td : TextDecoder) : utf8_decoder * bool :=
  if do_not_flush td then (utf8_state td, BOM_seen td) else (utf8_initial, false).

(** A decoder holds an incomplete sequence. *)
Definition pending (td : TextDecoder) : Prop :=
  bytes_needed (utf8_state td) <> 0.

(** ** Sample collaborators, for the examples *)

(** A renderer in the place of markdown-it: text that opens with a fence
    of three backquotes becomes a code block, other text a paragraph. *)
Definition sample_render (text : jsstring) : content :=
  match text with
  | 96 :: 96 :: 96 :: code => [PreCode (mkCode (lit "language-js") code false)]
  | _ => [Markup (lit "<p>" ++ text ++ lit "</p>")]
  end.

(** A highlighter in the place of highlight.js: it wraps the code in a
    span and marks the block, and leaves a marked block alone. *)
Definition sample_highlightElement (block : code_element) : code_element :=
  if data_highlighted block then block
  else mkCode (className block ++ lit " hljs")
              (lit "<span>" ++ innerHTML block ++ lit "</span>")
              true.


(** A document holding one empty streaming message, as [addChatMessage]
    creates it. *)
Definition sample_document : gmap string element :=
  {[ "msg-1"%string := mkElement (Some (sample_render [])) ]}.

(** A document that also shows the typing indicator. *)
Definition typing_document : gmap string element :=
  <[ TYPING_INDICATOR_ID := mkElement (Some [Markup (lit "...")]) ]>
    sample_document.

(** ** The chat transcript

    The children of the chat container, in document order, and the
    [chatHistory] array.  Of a message div the model keeps its id, its
    class, the children of its [.message-content] and the sources of its
    image previews; the header (icon, name, copy button) follows from
    the class and is left out, and so are scrolling and the highlighting
    that [addChatMessage] defers with a timer.  A message is put into
    the page as markup, unescaped; it is taken not to close the div it
    is placed in.  The page's static markup is not part of the script;
    it is taken to hold no element with a message id or the
    typing-indicator id.

    [document.getElementById] searches the whole document, the inside
    of every message included, and the model keeps the ids of the
    children of the container only.  The two agree as long as no
    message creates an element with an id of its own.  markdown-it as
    the script configures it (HTML off, no plugin) writes no [id]
    attribute, so the assistant's messages create none; a user's
    message is put in as it was typed and can create one.
    [carries_no_id] below is a condition on a user's message under
    which it creates none, and the properties that follow a user's
    message through [getElementById] assume it. *)

Inductive sender :=
| ai
| user.

Record chat_image := mkImage {
  mimeType : jsstring;
  data : jsstring
}.

(** An entry of [chatHistory]. *)
Record chat_entry := mkEntry {
  entry_sender : sender;
  entry_message : jsstring;
  entry_timestamp : jsstring;
  entry_images : list chat_image
}.

Record chat_div := mkDiv {
  div_id : string;
  div_className : string;
  div_content : content;
  div_previews : list jsstring
}.

Record transcript := mkTranscript {
  chatContainer : list chat_div;
  chatHistory : list chat_entry
}.

(** [document.getElementById(id)]: the first element with that id, in
    document order. *)
Definition getElementById (container : list chat_div) (id : string)
  : option chat_div :=
  snd <$> list_find (fun d => div_id d = id) container.

(** [existing.remove()] for the element [getElementById(id)] found. *)
Fixpoint remove_first (id : string) (container : list chat_div)
  : list chat_div :=
  match container with
  | [] => []
  | d :: rest =>
      if decide (div_id d = id) then rest else d :: remove_first id rest
  end.

(** [chatContainer.insertBefore(div, getElementById(id))], or
    [appendChild(div)] when there is no such element. *)
Fixpoint insert_before_first (id : string) (div : chat_div)
    (container : list chat_div) : list chat_div :=
  match container with
  | [] => [div]
  | d :: rest =>
      if decide (div_id d = id) then div :: d :: rest
      else d :: insert_before_first id div rest
  end.

(** The message element as [streamResponse] sees it, and the document
    that maps each id to the first element carrying it. *)
Definition element_of (d : chat_div) : element :=
  mkElement (Some (div_content d)).

Definition document_of (container : list chat_div) : gmap string element :=
  list_to_map ((fun d => (div_id d, element_of d)) <$> container).

Definition quote : jsstring := [34].

(** The content of the typing indicator (white space between the tags
    left out). *)
Definition typing_dots : content :=
  [Markup (lit "<div class=" ++ quote ++ lit "typing-dots" ++ quote
             ++ lit "><span></span><span></span><span></span></div>")].

Definition typing_div : chat_div :=
  mkDiv TYPING_INDICATOR_ID "ai-message typing-indicator" typing_dots [].

Definition showTypingIndicator (st : transcript) : chat_div * transcript :=
  (typing_div,
   mkTranscript (chatContainer st ++ [typing_div]) (chatHistory st)).

(** [`${sender}-message`] *)
Definition sender_class (s : sender) : string :=
  match s with
  | ai => "ai-message"
  | user => "user-message"
  end.

(** [`msg-${Date.now()}`], for the clock reading [now]. *)
Definition message_id (now : Z) : string := "msg-" +:+ pretty now.

Section ChatMessages.

Variable md_render : jsstring -> content.

Definition processedMessage (message : jsstring) (s : sender)
    (isRawHtml : bool) : content :=
  if isRawHtml then [Markup message]
  else match s with
       | ai => md_render message
       | user => [Markup (lit "<p>" ++ message ++ lit "</p>")]
       end.

(** [addChatMessage(message, sender, images, isStreaming, isRawHtml)],
    with the two clock readings it takes: [now] for the id and
    [timestamp] for the history entry.  It returns the id of the div.
    Both branches look the indicator up before the new div is in the
    page; of the new div the page gains the one id [messageId], the
    message creating no element with an id of its own (see above). *)
Definition addChatMessage (now : Z) (timestamp : jsstring)
    (message : jsstring) (s : sender) (images : list chat_image)
    (isStreaming isRawHtml : bool) (st : transcript) : string * transcript :=
  let messageId := message_id now in
  let div := mkDiv messageId (sender_class s)
               (processedMessage message s isRawHtml) (data <$> images) in
  let container :=
    if isStreaming then
      remove_first TYPING_INDICATOR_ID (chatContainer st) ++ [div]
    else insert_before_first TYPING_INDICATOR_ID div (chatContainer st) in
  let chatEntry := mkEntry s message timestamp images in
  (messageId, mkTranscript container (chatHistory st ++ [chatEntry])).

End ChatMessages.

(** A user's message that creates no element with an id when
    [addChatMessage] puts it into the page: its text holds no [<], so
    that [`<p>${message}</p>`] parses to a paragraph of text, and no
    image source holds a double quote, so that each
    [`<img src="${img.data}" ...>`] keeps the whole of it inside its
    [src] attribute. *)
Definition carries_no_id (message : jsstring) (images : list chat_image)
  : bool :=
  forallb (fun c => negb (c =? 0x3C)) message
  && forallb (fun img => forallb (fun c => negb (c =? 0x22)) (data img))
       images.

(** [contentDiv.innerHTML = ...] on the first element with the id. *)
Definition set_div_content (d : chat_div) (c : content) : chat_div :=
  mkDiv (div_id d) (div_className d) c (div_previews d).

Fixpoint update_first (id : string) (c : content) (container : list chat_div)
  : list chat_div :=
  match container with
  | [] => []
  | d :: rest =>
      if decide (div_id d = id) then set_div_content d c :: rest
      else d :: update_first id c rest
  end.

(** [streamResponse] run on the chat container: the element it finds by
    id is the first one with that id, and what it assigns to that
    element's content shows in the container. *)
Definition streamResponse_in (md_render : jsstring -> content)
    (hljs : option (code_element -> code_element))
    (response : Response) (messageId : string) (container : list chat_div)
  : settled jsstring * list chat_div :=
  let '(outcome, document) :=
    streamResponse md_render hljs response messageId (document_of container) in
  (outcome,
   match document !! messageId with
   | Some (mkElement (Some c)) => update_first messageId c container
   | _ => container
   end).

(** ** Strings of the script *)

(** [s.startsWith(prefix)] *)
Fixpoint startsWith (s prefix : jsstring) : bool :=
  match prefix, s with
  | [], _ => true
  | _ :: _, [] => false
  | p :: prefix', c :: s' => (c =? p) && startsWith s' prefix'
  end.

(** [s.includes(part)] *)
Fixpoint includes (s part : jsstring) : bool :=
  startsWith s part
  || match s with
     | [] => false
     | _ :: s' => includes s' part
     end.

(** White space and line terminators, as [trim] strips them. *)
Definition is_whitespace (c : Z) : bool :=
  (c =? 0x09) || (c =? 0x0A) || (c =? 0x0B) || (c =? 0x0C) || (c =? 0x0D)
  || (c =? 0x20) || (c =? 0xA0) || (c =? 0x1680)
  || ((0x2000 <=? c) && (c <=? 0x200A))
  || (c =? 0x2028) || (c =? 0x2029) || (c =? 0x202F) || (c =? 0x205F)
  || (c =? 0x3000) || (c =? 0xFEFF).

Fixpoint trimStart (s : jsstring) : jsstring :=
  match s with
  | [] => []
  | c :: s' => if is_whitespace c then trimStart s' else s
  end.

(** [s.trim()] *)
Definition trim (s : jsstring) : jsstring :=
  rev (trimStart (rev (trimStart s))).

(** A number in a template literal. *)
Definition number_text (n : Z) : jsstring := lit (pretty n).

(** ** The state of the page *)

(** An entry of [uploadedDocuments].  The id is the number
    [Date.now() + Math.random()], by its value. *)
Record uploaded_doc := mkDoc {
  doc_id : Qc;
  doc_name : jsstring;
  doc_type : jsstring;
  doc_content : jsstring;
  imageBase64 : option jsstring
}.

(** An item of a file list: the [data-id] of its button, its label and
    whether it carries a thumbnail. *)
Record file_item := mkItem {
  item_id : Qc;
  item_name : jsstring;
  item_thumbnail : bool
}.

Record app := mkApp {
  uploadedDocuments : list uploaded_doc;
  uploadedFilesList : list file_item;
  libraryFilesList : list file_item;
  docCountSpan : jsstring;
  libraryStats_shown : bool;
  selectedDepartment : option jsstring;
  chat : transcript;
  questionCount : Z;
  questionInput : jsstring;
  questionCountSpan : jsstring
}.

Definition with_chat (a : app) (c : transcript) : app :=
  mkApp (uploadedDocuments a) (uploadedFilesList a) (libraryFilesList a)
        (docCountSpan a) (libraryStats_shown a) (selectedDepartment a)
        c (questionCount a) (questionInput a) (questionCountSpan a).

(** ** [askQuestion] and [generateSummary]

    Both are followed in two parts: up to the [await] on [fetch] (the
    request is then on its way), and from the settling of [fetch] to the
    end.  What other handlers do to the page in between is not part of
    either function; [streamResponse] is run in one piece, as above. *)

Definition is_image (doc : uploaded_doc) : bool :=
  startsWith (doc_type doc) (lit "image/").

(** The value is truthy: neither [null] nor the empty string. *)
Definition has_imageBase64 (doc : uploaded_doc) : bool :=
  match imageBase64 doc with
  | Some (_ :: _) => true
  | _ => false
  end.

Definition imagesToSend (docs : list uploaded_doc) : list chat_image :=
  map (fun doc => mkImage (doc_type doc) (default [] (imageBase64 doc)))
      (List.filter (fun doc => is_image doc && has_imageBase64 doc) docs).

Definition textDocumentsContent (docs : list uploaded_doc) : list jsstring :=
  map doc_content (List.filter (fun doc => negb (is_image doc)) docs).

(** [`data:${img.mimeType};base64,${img.data}`] *)
Definition data_url (img : chat_image) : jsstring :=
  lit "data:" ++ mimeType img ++ lit ";base64," ++ data img.

(** The message that [askQuestion] shows for the user, the trimmed
    question with the data URLs of the images, creates no element with
    an id. *)
Definition question_carries_no_id (a : app) : bool :=
  carries_no_id (trim (questionInput a))
    (map (fun img => mkImage (mimeType img) (data_url img))
         (imagesToSend (uploadedDocuments a))).

(** The object handed to [JSON.stringify] for the request body; a
    summary request has no question and no chat history. *)
Record request := mkRequest {
  req_question : option jsstring;
  req_documents : list jsstring;
  req_images : list jsstring;
  req_department : option jsstring;
  req_chatHistory : option (list chat_entry);
  req_stream : bool
}.

(** Where the first part of a call leaves it: returned after a warning,
    or waiting for the response to the request it has sent. *)
Inductive sent :=
| Warned (a : app)
| Awaiting (messageId : string) (body : request) (a : app).

Definition ask_warning : jsstring :=
  [0x26A0; 0xFE0F] ++ lit " Enter a question or upload documents/images first.".

Definition summary_warning : jsstring :=
  [0x26A0; 0xFE0F]
    ++ lit " Upload PDF, DOCX documents, or images to summarize.".

Definition page_emoji : jsstring := utf16_units 0x1F4C4.
Definition frame_emoji : jsstring := utf16_units 0x1F5BC ++ [0xFE0F].
Definition cross_emoji : jsstring := [0x274C].

Section Asking.

Variable md_render : jsstring -> content.
Variable hljs : option (code_element -> code_element).

(** [askQuestion] up to [await fetch(...)].  [now1], [timestamp1] are
    the clock readings of the first [addChatMessage] and [now2],
    [timestamp2] those of the second. *)
Definition askQuestion_begin (now1 : Z) (timestamp1 : jsstring)
    (now2 : Z) (timestamp2 : jsstring) (a : app) : sent :=
  let question := trim (questionInput a) in
  let images := imagesToSend (uploadedDocuments a) in
  let documents := textDocumentsContent (uploadedDocuments a) in
  match question, images, documents with
  | [], [], [] =>
      Warned (with_chat a
                (snd (addChatMessage md_render now1 timestamp1 ask_warning ai []
                        false false (chat a))))
  | _, _, _ =>
      let shown_images :=
        map (fun img => mkImage (mimeType img) (data_url img)) images in
      let asked := snd (addChatMessage md_render now1 timestamp1 question user
                          shown_images false false (chat a)) in
      let count := questionCount a + 1 in
      let typing := snd (showTypingIndicator asked) in
      let '(messageId, placeholder) :=
        addChatMessage md_render now2 timestamp2 [] ai [] true false typing in
      Awaiting messageId
        (mkRequest (Some question) documents (map data_url images)
                   (selectedDepartment a) (Some (chatHistory placeholder)) true)
        (mkApp (uploadedDocuments a) (uploadedFilesList a) (libraryFilesList a)
               (docCountSpan a) (libraryStats_shown a) (selectedDepartment a)
               placeholder count [] (number_text count))
  end.

(** The announcement of [generateSummary]. *)
Definition summaryMessage (images : list chat_image)
    (documents : list jsstring) : jsstring :=
  match images, documents with
  | _ :: _, _ :: _ => page_emoji ++ lit " Summarizing documents and images..."
  | _ :: _, [] => frame_emoji ++ lit " Summarizing images..."
  | [], _ :: _ => page_emoji ++ lit " Summarizing documents..."
  | [], [] => page_emoji ++ lit " Summarizing..."
  end.

(** [generateSummary] up to [await fetch(...)]. *)
Definition generateSummary_begin (now1 : Z) (timestamp1 : jsstring)
    (now2 : Z) (timestamp2 : jsstring) (a : app) : sent :=
  let images := imagesToSend (uploadedDocuments a) in
  let documents := textDocumentsContent (uploadedDocuments a) in
  match documents, images with
  | [], [] =>
      Warned (with_chat a
                (snd (addChatMessage md_render now1 timestamp1 summary_warning
                        ai [] false false (chat a))))
  | _, _ =>
      let announced :=
        snd (addChatMessage md_render now1 timestamp1
               (summaryMessage images documents) ai [] false false (chat a)) in
      let typing := snd (showTypingIndicator announced) in
      let '(messageId, placeholder) :=
        addChatMessage md_render now2 timestamp2 [] ai [] true false typing in
      Awaiting messageId
        (mkRequest None documents (map data_url images)
                   (selectedDepartment a) None true)
        (with_chat a placeholder)
  end.

(** What [fetch] settles with: a rejection, or a response with its
    [ok] flag, its [status], what [text()] settles with, and its body. *)
Record http_response := mkHttp {
  ok : bool;
  status : Z;
  text : settled jsstring;
  streamed : Response
}.

Inductive fetched :=
| FetchFailed (error : JsError)
| Fetched (res : http_response).

(** [new Error(`HTTP error! Status: ${res.status}, Message: ${errorText}`)] *)
Definition http_error (res : http_response) (errorText : jsstring) : JsError :=
  mkError (lit "HTTP error! Status: " ++ number_text (status res)
             ++ lit ", Message: " ++ errorText).

(** The [ReferenceError] of [removeTypingIndicator]. *)
Definition typing_Div_error : JsError :=
  mkError (lit "typing_Div is not defined").

Definition is_placeholder (entry : chat_entry) : bool :=
  match entry_sender entry, entry_message entry with
  | ai, [] => true
  | _, _ => false
  end.

(** [chatHistory[chatHistory.findIndex(...)].message = text], when the
    index is not [-1]. *)
Fixpoint fill_first_placeholder (text : jsstring) (history : list chat_entry)
  : list chat_entry :=
  match history with
  | [] => []
  | entry :: rest =>
      if is_placeholder entry then
        mkEntry (entry_sender entry) text (entry_timestamp entry)
                (entry_images entry) :: rest
      else entry :: fill_first_placeholder text rest
  end.

(** The [try] block after [fetch] has settled: the error it throws or
    the message it has streamed, and the container it leaves. *)
Definition reply_try (result : fetched) (messageId : string)
    (container : list chat_div) : (JsError + jsstring) * list chat_div :=
  match result with
  | FetchFailed error => (inl error, container)
  | Fetched res =>
      if ok res then
        match removeTypingIndicator (document_of container) with
        | (Throw _, _) => (inl typing_Div_error, container)
        | (Normal _, _) =>
            match streamResponse_in md_render hljs (streamed res) messageId
                    container with
            | (Rejected error, container') => (inl error, container')
            | (Fulfilled fullMessage, container') => (inr fullMessage, container')
            end
        end
      else
        match text res with
        | Fulfilled errorText => (inl (http_error res errorText), container)
        | Rejected error => (inl error, container)
        end
  end.

(** The rest of [askQuestion] and of [generateSummary] once [fetch] has
    settled; the two differ in the texts of their [catch] blocks only.
    [shown] opens the text put into the message, [recorded] is what the
    history gets for an error without a message. *)
Definition reply_end (shown recorded : jsstring) (result : fetched)
    (messageId : string) (a : app) : settled unit * app :=
  match reply_try result messageId (chatContainer (chat a)) with
  | (inr fullMessage, container) =>
      (Fulfilled (),
       with_chat a (mkTranscript container
                      (fill_first_placeholder fullMessage (chatHistory (chat a)))))
  | (inl error, container) =>
      match removeTypingIndicator (document_of container) with
      | (Throw _, _) =>
          (Rejected typing_Div_error,
           with_chat a (mkTranscript container (chatHistory (chat a))))
      | (Normal _, _) =>
          let failure :=
            shown ++ or_else (message error)
                       (lit "Please try again or check server.") in
          (Fulfilled (),
           with_chat a
             (mkTranscript
                (update_first messageId [Markup failure] container)
                (fill_first_placeholder
                   (lit "AI Error: " ++ or_else (message error) recorded)
                   (chatHistory (chat a)))))
      end
  end.

Definition askQuestion_end : fetched -> string -> app -> settled unit * app :=
  reply_end (cross_emoji ++ lit " AI failed to respond. ")
            (lit "Failed to respond").

Definition generateSummary_end : fetched -> string -> app -> settled unit * app :=
  reply_end (cross_emoji ++ lit " Failed to summarize. ")
            (lit "Failed to summarize").

End Asking.

(** A document that neither list picks up: an image without data. *)
Definition unusable (doc : uploaded_doc) : Prop :=
  is_image doc = true /\ has_imageBase64 doc = false.


(** The page as the first part of a call leaves it. *)
Definition sent_app (s : sent) : app :=
  match s with
  | Warned a => a
  | Awaiting _ _ a => a
  end.

(** No typing indicator is in the chat container. *)
Definition no_indicator (a : app) : Prop :=
  getElementById (chatContainer (chat a)) TYPING_INDICATOR_ID = None.

(** ** The uploaded documents *)

(** [updateDocumentCount()] and [updateLibraryStats()] *)
Definition updateDocumentCount (a : app) : app :=
  mkApp (uploadedDocuments a) (uploadedFilesList a) (libraryFilesList a)
        (number_text (Z.of_nat (length (uploadedDocuments a))))
        (libraryStats_shown a) (selectedDepartment a)
        (chat a) (questionCount a) (questionInput a) (questionCountSpan a).

Definition updateLibraryStats (a : app) : app :=
  mkApp (uploadedDocuments a) (uploadedFilesList a) (libraryFilesList a)
        (docCountSpan a)
        (bool_decide (length (uploadedDocuments a) = 0%nat))
        (selectedDepartment a)
        (chat a) (questionCount a) (questionInput a) (questionCountSpan a).

Definition with_files (a : app) (docs : list uploaded_doc)
    (uploaded library : list file_item) : app :=
  mkApp docs uploaded library (docCountSpan a) (libraryStats_shown a)
        (selectedDepartment a) (chat a) (questionCount a) (questionInput a)
        (questionCountSpan a).

(** [displayUploadedFile(file, rawFile)]: an item in the upload list and
    its clone in the library list. *)
Definition displayUploadedFile (file : uploaded_doc) (rawFile : bool)
    (a : app) : app :=
  let item := mkItem (doc_id file) (doc_name file) (is_image file && rawFile) in
  updateLibraryStats
    (with_files a (uploadedDocuments a)
       (uploadedFilesList a ++ [item]) (libraryFilesList a ++ [item])).


Definition open_folder_emoji : jsstring := utf16_units 0x1F4C2.
Definition check_emoji : jsstring := [0x2705].
Definition book_emoji : jsstring := utf16_units 0x1F4D5.
Definition folder_emoji : jsstring := utf16_units 0x1F4C1.

Section Documents.

Variable md_render : jsstring -> content.


Definition clearAllFiles (now : Z) (timestamp : jsstring) (a : app) : app :=
  let counted := updateLibraryStats (updateDocumentCount (with_files a [] [] [])) in
  with_chat counted
    (snd (addChatMessage md_render now timestamp
            (open_folder_emoji ++ lit " All files cleared.") ai [] false false
            (chat counted))).

(** The label [processFiles] puts before the name of an uploaded file. *)
Definition file_prefix (fileType : jsstring) : jsstring :=
  if startsWith fileType (lit "image/") then frame_emoji ++ lit " Image"
  else if includes fileType (lit "officedocument.wordprocessingml.document")
  then page_emoji ++ lit " DOCX"
  else if includes fileType (lit "pdf") then book_emoji ++ lit " PDF"
  else folder_emoji ++ lit " File".

(** [x || fallback] for a value that may be missing. *)
Definition option_or (x : option jsstring) (fallback : option jsstring)
  : option jsstring :=
  match x with
  | Some (c :: s) => Some (c :: s)
  | _ => fallback
  end.

(** The branch of [processFiles] for an upload the server accepted, up
    to its [addChatMessage]: [id] is [Date.now() + Math.random()], and
    [extractedText], [image] are the fields of the server's answer. *)
Definition upload_accepted (id : Qc) (fileName fileType : jsstring)
    (extractedText image : option jsstring)
    (now : Z) (timestamp : jsstring) (a : app) : uploaded_doc * app :=
  let doc := mkDoc id (file_prefix fileType ++ lit " - " ++ fileName) fileType
               (default [] extractedText)
               (option_or image None) in
  let pushed := with_files a (uploadedDocuments a ++ [doc])
                  (uploadedFilesList a) (libraryFilesList a) in
  let counted := updateDocumentCount (displayUploadedFile doc true pushed) in
  (doc,
   with_chat counted
     (snd (addChatMessage md_render now timestamp
             (check_emoji ++ lit " Uploaded: " ++ fileName) ai [] false false
             (chat counted)))).

(** Whether [processFiles] goes on to [generateQuestionsForDocument]. *)
Definition wants_questions (doc : uploaded_doc) : bool :=
  (100 <? Z.of_nat (length (doc_content doc)))
  && (includes (doc_type doc) (lit "pdf")
      || includes (doc_type doc)
           (lit "officedocument.wordprocessingml.document")).

End Documents.

(** The file lists and the counter agree with [uploadedDocuments], whose
    ids are pairwise different. *)
Definition files_in_sync (a : app) : Prop :=
  NoDup (doc_id <$> uploadedDocuments a)
  /\ item_id <$> uploadedFilesList a = doc_id <$> uploadedDocuments a
  /\ item_id <$> libraryFilesList a = doc_id <$> uploadedDocuments a
  /\ docCountSpan a = number_text (Z.of_nat (length (uploadedDocuments a)))
  /\ libraryStats_shown a = bool_decide (uploadedDocuments a = []).

(** ** The built-in resources *)

(** The table [departmentResources]: departments, their categories and
    the topics of each, in the order of the source.  (Names that every
    object inherits, such as [toString], are not looked up here.) *)
Definition departmentResources
  : list (jsstring * list (jsstring * list jsstring)) :=
  [ (lit "engineering",
     [(lit "Mathematics",
       [lit "Calculus"; lit "Differential Equations"; lit "Linear Algebra";
        lit "Statistics"])]);
    (lit "computer-science",
     [(lit "Programming",
       [lit "Data Structures"; lit "Algorithms"; lit "OOP Concepts";
        lit "Design Patterns"])]);
    (lit "medicine",
     [(lit "Basic Sciences",
       [lit "Anatomy"; lit "Physiology"; lit "Biochemistry"; lit "Pathology"])]);
    (lit "business",
     [(lit "Core Subjects",
       [lit "Accounting"; lit "Finance"; lit "Marketing"; lit "Management"])]);
    (lit "law",
     [(lit "Foundational",
       [lit "Constitutional Law"; lit "Criminal Law"; lit "Contract Law";
        lit "Tort Law"])]);
    (lit "arts",
     [(lit "Literature",
       [lit "Literary Theory"; lit "Poetry Analysis"; lit "World Literature";
        lit "Creative Writing"])]);
    (lit "science",
     [(lit "Chemistry",
       [lit "Organic Chemistry"; lit "Inorganic Chemistry";
        lit "Physical Chemistry"; lit "Analytical Chemistry"])]);
    (lit "general",
     [(lit "Study Skills",
       [lit "Time Management"; lit "Note-Taking"; lit "Exam Preparation";
        lit "Critical Thinking"])]) ].

(** [table[name]] *)
Fixpoint property {A : Type} (table : list (jsstring * A)) (name : jsstring)
  : option A :=
  match table with
  | [] => None
  | (key, value) :: rest =>
      if decide (key = name) then Some value else property rest name
  end.

(** What the promise of [simulateResourceLoad(dept, cat, topic)]
    resolves with. *)
Definition simulateResourceLoad (dept cat topic : jsstring) : jsstring :=
  lit "This is a simulated resource on " ++ topic ++ lit " in " ++ cat
    ++ lit " (" ++ dept
    ++ lit ") with detailed explanations and examples.".

(** [`${dept}-${category}-${topic}`] *)
Definition resource_key (dept category topic : jsstring) : jsstring :=
  dept ++ lit "-" ++ category ++ lit "-" ++ topic.

(** [builtInResources[key]] is truthy. *)
Definition loaded (builtInResources : gmap (list Z) (list Z)) (key : jsstring)
  : bool :=
  match builtInResources !! key with
  | Some (_ :: _) => true
  | _ => false
  end.

Definition topic_html (dept category topic : jsstring) : jsstring :=
  lit "<li><span class=" ++ quote ++ lit "resource-item" ++ quote
    ++ lit " data-topic=" ++ quote ++ topic ++ quote
    ++ lit " data-category=" ++ quote ++ category ++ quote
    ++ lit " data-dept=" ++ quote ++ dept ++ quote
    ++ lit ">" ++ topic ++ lit "</span></li>".

(** One round of the inner loop of [displayBuiltInResources]. *)
Definition show_topic (dept category : jsstring)
    (state : gmap (list Z) (list Z) * jsstring) (topic : jsstring)
  : gmap (list Z) (list Z) * jsstring :=
  let '(builtInResources, html) := state in
  let key := resource_key dept category topic in
  (if loaded builtInResources key then builtInResources
   else <[key := simulateResourceLoad dept category topic]> builtInResources,
   html ++ topic_html dept category topic).

(** One round of the outer loop. *)
Definition show_category (dept : jsstring)
    (state : gmap (list Z) (list Z) * jsstring)
    (entry : jsstring * list jsstring) : gmap (list Z) (list Z) * jsstring :=
  let '(category, topics) := entry in
  let '(builtInResources, html) := state in
  let opened := html ++ lit "<h4>" ++ category ++ lit "</h4><ul class="
                  ++ quote ++ lit "resource-list" ++ quote ++ lit ">" in
  let '(builtInResources', listed) :=
    fold_left (show_topic dept category) topics (builtInResources, opened) in
  (builtInResources', listed ++ lit "</ul>").

(** [displayBuiltInResources(dept)] over a table of departments: the
    cache [builtInResources] it leaves and the markup it puts into the
    resource panel.  The loads it awaits are taken one after the other,
    with no other handler in between. *)
Definition display_resources
    (table : list (jsstring * list (jsstring * list jsstring)))
    (dept : jsstring) (builtInResources : gmap (list Z) (list Z))
  : gmap (list Z) (list Z) * jsstring :=
  match property table dept with
  | None => (builtInResources, lit "No resources available.")
  | Some categories =>
      fold_left (show_category dept) categories (builtInResources, [])
  end.

Definition displayBuiltInResources
  : jsstring -> gmap (list Z) (list Z) -> gmap (list Z) (list Z) * jsstring :=
  display_resources departmentResources.

(** Every loaded entry of the first cache is the same in the second. *)
Definition keeps_loaded (before after : gmap (list Z) (list Z)) : Prop :=
  forall key, loaded before key = true -> after !! key = before !! key.

(** The markup of one category. *)
Definition category_html (dept : jsstring) (entry : jsstring * list jsstring)
  : jsstring :=
  lit "<h4>" ++ fst entry ++ lit "</h4><ul class=" ++ quote
    ++ lit "resource-list" ++ quote ++ lit ">"
    ++ concat (topic_html dept (fst entry) <$> snd entry) ++ lit "</ul>".

(** ** [generateQuestionsForDocument]

    Followed, like [askQuestion], in two parts around its [await]s. *)

Definition bulb_emoji : jsstring := utf16_units 0x1F4A1.

(** The body of the request. *)
Record questions_request := mkQuestionsRequest {
  req_documentText : jsstring;
  req_questions_department : option jsstring
}.

(** What [res.json()] resolves with: [null], or a value whose
    [questions] is an array of strings or is missing. *)
Inductive questions_data :=
| NullData
| Data (questions : option (list jsstring)).

Record questions_response := mkQuestions {
  questions_ok : bool;
  questions_status : Z;
  questions_text : settled jsstring;
  questions_json : settled questions_data
}.

Inductive questions_fetched :=
| QuestionsFailed (error : JsError)
| QuestionsFetched (res : questions_response).

(** [chatHistoryDiv.lastChild.remove()]; there is nothing to call
    [remove] on when the container has no child. *)
Definition remove_lastChild (container : list chat_div)
  : option (list chat_div) :=
  match container with
  | [] => None
  | _ :: _ => Some (removelast container)
  end.

(** The errors of reading a property of [null], in V8's words. *)
Definition lastChild_is_null : JsError :=
  mkError (lit "Cannot read properties of null (reading 'remove')").

Definition data_is_null : JsError :=
  mkError (lit "Cannot read properties of null (reading 'questions')").

(** One button of the message that offers the questions. *)
Definition question_button (index : nat) (q : jsstring) : jsstring :=
  lit "<button class=" ++ quote ++ lit "btn btn-small generated-question-btn"
    ++ quote ++ lit " data-question=" ++ quote ++ q ++ quote ++ lit ">"
    ++ number_text (Z.of_nat index + 1) ++ lit ". " ++ q
    ++ lit "</button><br>".

Definition questionsHtml (questions : list jsstring) : jsstring :=
  lit "<strong>Here are some quick questions you might ask:</strong><br>"
    ++ concat (imap question_button questions).

Section Questions.

Variable md_render : jsstring -> content.

Definition generateQuestions_begin (now : Z) (timestamp : jsstring)
    (documentText : jsstring) (a : app) : questions_request * app :=
  (mkQuestionsRequest documentText (selectedDepartment a),
   with_chat a
     (snd (addChatMessage md_render now timestamp
             (bulb_emoji ++ lit " Generating quick questions...") ai []
             false false (chat a)))).

(** The [try] block once [fetch] has settled: the error it throws, if
    any, and the transcript at that point. *)
Definition questions_try (result : questions_fetched) (now : Z)
    (timestamp : jsstring) (st : transcript) : option JsError * transcript :=
  match result with
  | QuestionsFailed error => (Some error, st)
  | QuestionsFetched res =>
      if questions_ok res then
        match questions_json res with
        | Rejected error => (Some error, st)
        | Fulfilled response =>
            match remove_lastChild (chatContainer st) with
            | None => (Some lastChild_is_null, st)
            | Some container =>
                let removed := mkTranscript container (chatHistory st) in
                match response with
                | NullData => (Some data_is_null, removed)
                | Data (Some (q :: questions)) =>
                    (None,
                     snd (addChatMessage md_render now timestamp
                            (questionsHtml (q :: questions)) ai []
                            false true removed))
                | Data _ =>
                    (None,
                     snd (addChatMessage md_render now timestamp
                            (lit "No quick questions could be generated for this document.")
                            ai [] false false removed))
                end
            end
        end
      else
        match questions_text res with
        | Fulfilled errorText =>
            (Some (mkError (lit "HTTP error! Status: "
                              ++ number_text (questions_status res)
                              ++ lit ", Message: " ++ errorText)), st)
        | Rejected error => (Some error, st)
        end
  end.

(** [generateQuestionsForDocument] from the settling of [fetch] on. *)
Definition generateQuestions_end (result : questions_fetched) (now : Z)
    (timestamp : jsstring) (a : app) : settled unit * app :=
  match questions_try result now timestamp (chat a) with
  | (None, st) => (Fulfilled (), with_chat a st)
  | (Some error, st) =>
      match remove_lastChild (chatContainer st) with
      | None => (Rejected lastChild_is_null, with_chat a st)
      | Some container =>
          (Fulfilled (),
           with_chat a
             (snd (addChatMessage md_render now timestamp
                     (cross_emoji ++ lit " Failed to generate quick questions. "
                        ++ or_else (message error)
                             (lit "Please try again or check server."))
                     ai [] false false
                     (mkTranscript container (chatHistory st)))))
      end
  end.

End Questions.

(** The message that ends a successful call. *)
Definition questions_message (questions : option (list jsstring))
  : jsstring * bool :=
  match questions with
  | Some (q :: rest) => (questionsHtml (q :: rest), true)
  | _ => (lit "No quick questions could be generated for this document.", false)
  end.

(* ===================================================================== *)
(** * Part II: the decoder                                                 *)
(* ===================================================================== *)

(** *** The decoder on a few byte sequences *)

Example decode_euro_one_chunk :
  snd (decode new_TextDecoder [0xE2; 0x82; 0xAC] true) = [0x20AC].
Proof. reflexivity. Qed.

Example decode_astral_as_surrogate_pair :
  snd (decode new_TextDecoder [0xF0; 0x9F; 0x98; 0x80] true) = [0xD83D; 0xDE00].
Proof. reflexivity. Qed.

Example decode_truncated_then_ascii :
  snd (decode new_TextDecoder [0xE2; 0x41] true) = [0xFFFD; 0x41].
Proof. reflexivity. Qed.

Example decode_encoded_surrogate :
  snd (decode new_TextDecoder [0xED; 0xA0; 0x80] true) = [0xFFFD; 0xFFFD; 0xFFFD].
Proof. reflexivity. Qed.

Example decode_overlong :
  snd (decode new_TextDecoder [0xC0; 0xAF] true) = [0xFFFD; 0xFFFD].
Proof. reflexivity. Qed.

Example decode_leading_bom_stripped :
  snd (decode new_TextDecoder [0xEF; 0xBB; 0xBF; 0x41] true) = [0x41].
Proof. reflexivity. Qed.

Example decode_inner_bom_kept :
  snd (decode new_TextDecoder [0x41; 0xEF; 0xBB; 0xBF] true) = [0x41; 0xFEFF].
Proof. reflexivity. Qed.

Example decode_flush_replaces_pending :
  snd (decode new_TextDecoder [0x41; 0xE2; 0x82] false) = [0x41; 0xFFFD].
Proof. reflexivity. Qed.

Example decode_stream_holds_pending :
  decode new_TextDecoder [0x41; 0xE2; 0x82] true
  = (mkTextDecoder (Utf8Decoder 0x82 1 2 0x80 0xBF) true true, [0x41]).
Proof. reflexivity. Qed.

Example remove_typing_throws :
  fst (removeTypingIndicator typing_document)
  = Throw "ReferenceError: typing_Div is not defined".
Proof. vm_compute. reflexivity. Qed.

(** *** Streaming decode is compositional *)

Lemma process_queue_app d a b :
  process_queue d (a ++ b)
  = (fst (process_queue (fst (process_queue d a)) b),
     snd (process_queue d a) ++ snd (process_queue (fst (process_queue d a)) b)).
Proof.
  revert d. induction a as [|x a IH]; intros d; simpl.
  - by destruct (process_queue d b).
  - destruct (process_byte d x) as [d1 o1]. rewrite IH.
    destruct (process_queue d1 a) as [d2 o2]; simpl.
    by rewrite app_assoc.
Qed.

Lemma utf16_text_app a b : utf16_text (a ++ b) = utf16_text a ++ utf16_text b.
Proof. apply flat_map_app. Qed.

Lemma serialize_seen output : serialize true output = (true, utf16_text output).
Proof. by destruct output. Qed.

Lemma serialize_app bom o1 o2 :
  serialize bom (o1 ++ o2)
  = (fst (serialize (fst (serialize bom o1)) o2),
     snd (serialize bom o1) ++ snd (serialize (fst (serialize bom o1)) o2)).
Proof.
  destruct o1 as [|item rest]; simpl.
  - by destruct (serialize bom o2).
  - destruct bom; simpl; rewrite serialize_seen; simpl.
    + by rewrite utf16_text_app, app_assoc.
    + by rewrite utf16_text_app, app_assoc.
Qed.

Lemma decode_stream_unfold td input :
  decode td input true
  = (mkTextDecoder (fst (process_queue (fst (resumed td)) input))
       (fst (serialize (snd (resumed td))
                       (snd (process_queue (fst (resumed td)) input))))
       true,
     snd (serialize (snd (resumed td))
                    (snd (process_queue (fst (resumed td)) input)))).
Proof.
  unfold decode, resumed.
  destruct (if do_not_flush td then _ else _) as [d0 bom0]; simpl.
  destruct (process_queue d0 input) as [d1 o1]; simpl.
  rewrite app_nil_r. by destruct (serialize bom0 o1).
Qed.

Lemma decode_stream_app td a b :
  decode td (a ++ b) true
  = (fst (decode (fst (decode td a true)) b true),
     snd (decode td a true) ++ snd (decode (fst (decode td a true)) b true)).
Proof.
  rewrite !decode_stream_unfold; simpl.
  rewrite process_queue_app; simpl. by rewrite serialize_app.
Qed.

Lemma decode_stream_nil td : snd (decode td [] true) = [].
Proof. rewrite decode_stream_unfold. reflexivity. Qed.

Lemma resumed_after_decode td input :
  do_not_flush (fst (decode td input true)) = true.
Proof. by rewrite decode_stream_unfold. Qed.

(** Decoding nothing in streaming mode leaves a streaming decoder as it is. *)
Lemma decode_stream_nil_state td :
  do_not_flush td = true -> fst (decode td [] true) = td.
Proof.
  intros H. rewrite decode_stream_unfold. unfold resumed. rewrite H.
  by destruct td; simpl in *; subst.
Qed.

(** The text of a run is the streaming decode of all its bytes. *)
Lemma concat_decoded_chunks td values :
  concat (decoded_chunks td values) = snd (decode td (concat values) true).
Proof.
  revert td. induction values as [|v values IH]; intros td; simpl.
  - by rewrite decode_stream_nil.
  - rewrite decode_stream_app.
    destruct (decode td v true) as [td1 s1]; simpl. by rewrite IH.
Qed.

(** *** Bit arithmetic of the handler *)

Ltac zlia := Z.to_euclidean_division_equations; lia.

Lemma land_0x3F x : Z.land x 0x3F = x mod 64.
Proof. apply (Z.land_ones x 6). lia. Qed.

Lemma land_0x1F x : Z.land x 0x1F = x mod 32.
Proof. apply (Z.land_ones x 5). lia. Qed.

Lemma land_0xF x : Z.land x 0xF = x mod 16.
Proof. apply (Z.land_ones x 4). lia. Qed.

Lemma land_0x7 x : Z.land x 0x7 = x mod 8.
Proof. apply (Z.land_ones x 3). lia. Qed.

Lemma land_disjoint_6 hi lo : 0 <= lo < 64 -> Z.land (hi * 64) lo = 0.
Proof.
  intros H. apply Z.bits_inj'. intros n Hn.
  rewrite Z.land_spec, Z.bits_0.
  destruct (Z.lt_ge_cases n 6) as [Hlt|Hge].
  - change 64 with (2 ^ 6). by rewrite Z.mul_pow2_bits_low.
  - assert (Z.testbit lo n = false) as ->; [|apply andb_false_r].
    destruct (Z.eq_dec lo 0) as [->|Hne]; [apply Z.bits_0|].
    apply Z.bits_above_log2; [lia|].
    assert (Z.log2 lo < 6); [|lia].
    apply Z.log2_lt_pow2; [lia|]. change (2 ^ 6) with 64. lia.
Qed.

Lemma lor_shiftl_6 hi lo :
  0 <= lo < 64 -> Z.lor (Z.shiftl hi 6) lo = hi * 64 + lo.
Proof.
  intros H. rewrite Z.shiftl_mul_pow2 by lia. change (2 ^ 6) with 64.
  rewrite <- Z.lxor_lor, <- Z.add_nocarry_lxor; auto using land_disjoint_6.
Qed.

Lemma lor_0x80 lo : 0 <= lo < 64 -> Z.lor 0x80 lo = 128 + lo.
Proof.
  intros H. change (Z.lor 0x80 lo) with (Z.lor (Z.shiftl 2 6) lo).
  rewrite lor_shiftl_6; lia.
Qed.

Lemma continuation_byte x : Z.lor 0x80 (Z.land x 0x3F) = 128 + x mod 64.
Proof. rewrite land_0x3F. apply lor_0x80. zlia. Qed.

(** *** One step of the decoder, by kind of byte *)

Ltac handler_cases :=
  unfold process_byte, utf8_handler, in_range; simpl;
  repeat match goal with
         | |- context [if ?c then _ else _] => destruct c eqn:?
         end;
  simpl; try reflexivity; try (exfalso; lia).

Lemma process_ascii b :
  0 <= b <= 0x7F -> process_byte utf8_initial b = (utf8_initial, [b]).
Proof. intros H. handler_cases. Qed.

Lemma process_lead2 b :
  0xC2 <= b <= 0xDF ->
  process_byte utf8_initial b = (Utf8Decoder (b mod 32) 0 1 0x80 0xBF, []).
Proof. intros H. rewrite <- land_0x1F. handler_cases. Qed.

Lemma process_lead3 b :
  0xE0 <= b <= 0xEF ->
  process_byte utf8_initial b
  = (Utf8Decoder (b mod 16) 0 2
       (if b =? 0xE0 then 0xA0 else 0x80)
       (if b =? 0xED then 0x9F else 0xBF), []).
Proof. intros H. rewrite <- land_0xF. handler_cases. Qed.

Lemma process_lead4 b :
  0xF0 <= b <= 0xF4 ->
  process_byte utf8_initial b
  = (Utf8Decoder (b mod 8) 0 3
       (if b =? 0xF0 then 0x90 else 0x80)
       (if b =? 0xF4 then 0x8F else 0xBF), []).
Proof. intros H. rewrite <- land_0x7. handler_cases. Qed.

Lemma process_continuation cp seen needed lo hi b :
  needed <> 0 -> lo <= b <= hi -> seen + 1 <> needed ->
  process_byte (Utf8Decoder cp seen needed lo hi) b
  = (Utf8Decoder (cp * 64 + b mod 64) (seen + 1) needed 0x80 0xBF, []).
Proof.
  intros Hn Hb Hs.
  rewrite <- (lor_shiftl_6 cp (b mod 64)), <- land_0x3F by zlia.
  handler_cases.
Qed.

Lemma process_last cp seen needed lo hi b :
  needed <> 0 -> lo <= b <= hi -> seen + 1 = needed ->
  process_byte (Utf8Decoder cp seen needed lo hi) b
  = (utf8_initial, [cp * 64 + b mod 64]).
Proof.
  intros Hn Hb Hs.
  rewrite <- (lor_shiftl_6 cp (b mod 64)), <- land_0x3F by zlia.
  handler_cases.
Qed.

(** *** Decoding an encoded scalar value *)

Lemma shiftr_div x n : 0 <= n -> Z.shiftr x n = x / 2 ^ n.
Proof. apply Z.shiftr_div_pow2. Qed.

Lemma utf8_encode_arith cp :
  utf8_encode cp
  = if cp <=? 0x7F then [cp]
    else if cp <=? 0x7FF then [cp / 64 + 192; 128 + cp mod 64]
    else if cp <=? 0xFFFF then
      [cp / 4096 + 224; 128 + (cp / 64) mod 64; 128 + cp mod 64]
    else
      [cp / 262144 + 240; 128 + (cp / 4096) mod 64;
       128 + (cp / 64) mod 64; 128 + cp mod 64].
Proof.
  unfold utf8_encode. rewrite !continuation_byte, !shiftr_div by lia.
  reflexivity.
Qed.

Ltac step_with lem :=
  rewrite lem by (repeat case_match; zlia).

Lemma process_utf8_encode cp :
  scalar_value cp ->
  process_queue utf8_initial (utf8_encode cp) = (utf8_initial, [cp]).
Proof.
  intros [Hr Hs]. rewrite utf8_encode_arith.
  repeat case_match; cbn [process_queue].
  - step_with process_ascii. reflexivity.
  - step_with process_lead2. step_with process_last.
    simpl. do 3 f_equal. zlia.
  - step_with process_lead3. step_with process_continuation.
    step_with process_last. simpl. do 3 f_equal. zlia.
  - step_with process_lead4. do 2 step_with process_continuation.
    step_with process_last. simpl. do 3 f_equal. zlia.
Qed.

Lemma process_utf8_encode_text scalars :
  Forall scalar_value scalars ->
  process_queue utf8_initial (utf8_encode_text scalars) = (utf8_initial, scalars).
Proof.
  induction 1 as [|cp scalars Hcp _ IH]; [reflexivity|].
  change (utf8_encode_text (cp :: scalars))
    with (utf8_encode cp ++ utf8_encode_text scalars).
  rewrite process_queue_app, process_utf8_encode by done. simpl.
  by rewrite IH.
Qed.

(** A proper, non-empty prefix of an encoded scalar value is held back by
    the decoder: nothing is pushed and a sequence is pending. *)
Lemma process_incomplete cp partial missing :
  scalar_value cp ->
  utf8_encode cp = partial ++ missing -> partial <> [] -> missing <> [] ->
  exists d, process_queue utf8_initial partial = (d, [])
            /\ bytes_needed d <> 0.
Proof.
  intros [Hr Hs] Henc Hp Hm. rewrite utf8_encode_arith in Henc.
  destruct partial as [|b1 [|b2 [|b3 [|b4 rest]]]]; [done|..];
    repeat case_match; simplify_list_eq; try done; cbn [process_queue].
  - step_with process_lead2. eexists; split; [reflexivity|simpl; lia].
  - step_with process_lead3. eexists; split; [reflexivity|simpl; lia].
  - step_with process_lead4. eexists; split; [reflexivity|simpl; lia].
  - step_with process_lead3. step_with process_continuation.
    eexists; split; [reflexivity|simpl; lia].
  - step_with process_lead4. step_with process_continuation.
    eexists; split; [reflexivity|simpl; lia].
  - step_with process_lead4. do 2 step_with process_continuation.
    eexists; split; [reflexivity|simpl; lia].
  - by destruct rest, missing.
Qed.

(** A flushing call on a pending decoder returns U+FFFD. *)
Lemma decode_flush_pending td :
  do_not_flush td = true -> pending td -> snd (decode td [] false) = [0xFFFD].
Proof.
  unfold pending, decode, utf8_end_of_queue. intros -> Hp. simpl.
  destruct (bytes_needed (utf8_state td) =? 0) eqn:E; [lia|].
  simpl. by destruct (BOM_seen td).
Qed.

(** A flushing call on a decoder with nothing pending returns nothing. *)
Lemma decode_flush_complete td :
  do_not_flush td = true -> ~ pending td -> snd (decode td [] false) = [].
Proof.
  unfold pending, decode, utf8_end_of_queue. intros -> Hp. simpl.
  destruct (bytes_needed (utf8_state td) =? 0) eqn:E; [|lia].
  reflexivity.
Qed.

(** The streaming decode of encoded text, from a fresh decoder. *)
Lemma decode_stream_text scalars :
  Forall scalar_value scalars ->
  decode new_TextDecoder (utf8_encode_text scalars) true
  = (mkTextDecoder utf8_initial (bool_decide (scalars <> [])) true,
     utf16_text (strip_bom scalars)).
Proof.
  intros H. rewrite decode_stream_unfold. simpl.
  rewrite process_utf8_encode_text by done. simpl.
  destruct scalars as [|item rest]; [reflexivity|]. simpl.
  by destruct (item =? 65279).
Qed.

(* ===================================================================== *)
(** * Part III: the read loop                                              *)
(* ===================================================================== *)

Section ReadLoop.

Variable md_render : jsstring -> content.
Variable hljs : option (code_element -> code_element).

Local Abbreviation on_chunk := (on_chunk md_render hljs).
Local Abbreviation read_loop := (read_loop md_render hljs).
Local Abbreviation trace := (trace md_render hljs).
Local Abbreviation renders := (renders md_render hljs).
Local Abbreviation rendered := (rendered md_render hljs).
Local Abbreviation update_message := (update_message md_render hljs).

Lemma set_content_twice el c1 c2 :
  set_content (set_content el c1) c2 = set_content el c2.
Proof. by destruct el as [[c|]]. Qed.

Lemma update_message_twice m text1 text2 :
  update_message (update_message m text1) text2 = update_message m text2.
Proof. destruct m; simpl; [|done]. by rewrite set_content_twice. Qed.

Lemma on_chunk_fullMessage s value :
  fullMessage (on_chunk s value)
  = fullMessage s ++ snd (decode (decoder s) value true).
Proof. unfold on_chunk. by destruct (decode (decoder s) value true). Qed.

Lemma on_chunk_decoder s value :
  decoder (on_chunk s value) = fst (decode (decoder s) value true).
Proof. unfold on_chunk. by destruct (decode (decoder s) value true). Qed.

Lemma on_chunk_messageElement s value :
  messageElement (on_chunk s value)
  = update_message (messageElement s) (fullMessage (on_chunk s value)).
Proof. unfold on_chunk. by destruct (decode (decoder s) value true). Qed.

Lemma read_loop_cons s value values :
  read_loop s (value :: values) = read_loop (on_chunk s value) values.
Proof. reflexivity. Qed.

Lemma read_loop_snoc s values value :
  read_loop s (values ++ [value]) = on_chunk (read_loop s values) value.
Proof. unfold read_loop. by rewrite fold_left_app. Qed.

(** The accumulated text is what the decode calls returned, in order. *)
Lemma read_loop_fullMessage s values :
  fullMessage (read_loop s values)
  = fullMessage s ++ concat (decoded_chunks (decoder s) values).
Proof.
  revert s. induction values as [|v values IH]; intros s.
  - simpl. by rewrite app_nil_r.
  - rewrite read_loop_cons, IH, on_chunk_fullMessage, on_chunk_decoder.
    simpl. destruct (decode (decoder s) v true) as [td chunk]; simpl.
    by rewrite app_assoc.
Qed.

Lemma read_loop_decoder s values :
  values <> [] ->
  decoder (read_loop s values) = fst (decode (decoder s) (concat values) true).
Proof.
  revert s. induction values as [|v values IH]; intros s Hne; [done|].
  rewrite read_loop_cons. destruct values as [|w values].
  - simpl. by rewrite app_nil_r, on_chunk_decoder.
  - rewrite IH, on_chunk_decoder by done.
    change (concat (v :: w :: values)) with (v ++ concat (w :: values)).
    by rewrite decode_stream_app.
Qed.

(** Once a chunk has arrived, the target shows the text accumulated
    so far, whatever it showed before. *)
Lemma read_loop_messageElement s values :
  values <> [] ->
  messageElement (read_loop s values)
  = update_message (messageElement s) (fullMessage (read_loop s values)).
Proof.
  revert s. induction values as [|v values IH]; intros s Hne; [done|].
  rewrite read_loop_cons. destruct values as [|w values].
  - apply on_chunk_messageElement.
  - rewrite IH by done. rewrite on_chunk_messageElement.
    apply update_message_twice.
Qed.

Lemma trace_length s values : length (trace s values) = length values.
Proof.
  revert s. induction values as [|v values IH]; intros s; simpl; [done|].
  by rewrite IH.
Qed.

Lemma trace_lookup s values (i : nat) :
  (i < length values)%nat ->
  trace s values !! i = Some (read_loop s (take (S i) values)).
Proof.
  revert s i. induction values as [|v values IH]; intros s i Hi; simpl in *.
  - lia.
  - destruct i as [|i]; simpl.
    + reflexivity.
    + rewrite IH by lia. reflexivity.
Qed.

Lemma trace_last s values :
  values <> [] -> last (trace s values) = Some (read_loop s values).
Proof.
  intros Hne. rewrite last_lookup, trace_length.
  rewrite trace_lookup by (destruct values; simpl in *; [done|lia]).
  destruct values as [|v values]; [done|]. simpl length.
  replace (S (Nat.pred (S (length values)))) with (length (v :: values))
    by (simpl; lia).
  by rewrite firstn_all.
Qed.

Lemma decoded_chunks_take td values (n : nat) :
  take n (decoded_chunks td values) = decoded_chunks td (take n values).
Proof.
  revert td n. induction values as [|v values IH]; intros td n.
  - by destruct n.
  - destruct n as [|n]; simpl; [done|].
    destruct (decode td v true) as [td' chunk]. simpl. by rewrite IH.
Qed.

(** The text after the first [n] chunks. *)
Lemma read_loop_take_fullMessage messageId document values (n : nat) :
  fullMessage (read_loop (start messageId document) (take n values))
  = concat (take n (decoded_chunks new_TextDecoder values)).
Proof. by rewrite read_loop_fullMessage, decoded_chunks_take. Qed.

End ReadLoop.

(* ===================================================================== *)
(** * Part IV: properties of [streamResponse] and [removeTypingIndicator]  *)
(* ===================================================================== *)

(** The text [streamResponse] resolves with. *)
Lemma streamResponse_outcome md_render hljs values ending messageId document :
  fst (streamResponse md_render hljs
         (mkResponse (Some (mkStream values ending))) messageId document)
  = Fulfilled
      (concat (decoded_chunks new_TextDecoder values)
         ++ match ending with
            | Closed => []
            | Errored error => annotation error
            end).
Proof.
  unfold streamResponse. simpl. rewrite read_loop_fullMessage. simpl.
  destruct ending; [by rewrite app_nil_r | done].
Qed.

(** The document [streamResponse] leaves: untouched when no chunk
    arrived, and otherwise the target with its content replaced by the
    rendering of the accumulated text. *)
Lemma streamResponse_document md_render hljs values ending messageId document :
  snd (streamResponse md_render hljs
         (mkResponse (Some (mkStream values ending))) messageId document)
  = match values, document !! messageId with
    | _ :: _, Some el =>
        <[messageId :=
            set_content el
              (rendered md_render hljs
                 (concat (decoded_chunks new_TextDecoder values)))]> document
    | _, _ => document
    end.
Proof.
  unfold streamResponse, write_back. simpl.
  destruct values as [|v values].
  - simpl. destruct (document !! messageId) eqn:E; [|done].
    by apply insert_id.
  - rewrite read_loop_messageElement, read_loop_fullMessage by done.
    simpl. by destruct (document !! messageId).
Qed.

(** C1. When every read succeeds and the chunks together are the UTF-8
    encoding of a text, [streamResponse] resolves, at stream completion,
    with the concatenation of the strings decoded from the chunks in
    arrival order; that concatenation is the text itself (without a
    leading byte order mark, which the decoder strips). *)
Theorem streamResponse_resolves_with_decoded_text
    md_render hljs values scalars messageId document :
  Forall scalar_value scalars ->
  concat values = utf8_encode_text scalars ->
  fst (streamResponse md_render hljs
         (mkResponse (Some (mkStream values Closed))) messageId document)
  = Fulfilled (concat (decoded_chunks new_TextDecoder values))
  /\ concat (decoded_chunks new_TextDecoder values)
     = utf16_text (strip_bom scalars).
Proof.
  intros Hs Hc. split.
  - by rewrite streamResponse_outcome, app_nil_r.
  - by rewrite concat_decoded_chunks, Hc, decode_stream_text.
Qed.

Lemma streamResponse_resolves_with_decoded_text_witness :
  let values := [[0x48; 0xE2]; [0x82; 0xAC; 0xF0; 0x9F]; [0x98; 0x80]] in
  fst (streamResponse sample_render (Some sample_highlightElement)
         (mkResponse (Some (mkStream values Closed))) "msg-1" sample_document)
  = Fulfilled (concat (decoded_chunks new_TextDecoder values))
  /\ concat (decoded_chunks new_TextDecoder values)
     = [0x48; 0x20AC; 0xD83D; 0xDE00].
Proof.
  apply (streamResponse_resolves_with_decoded_text
           sample_render (Some sample_highlightElement)
           [[0x48; 0xE2]; [0x82; 0xAC; 0xF0; 0x9F]; [0x98; 0x80]]
           [0x48; 0x20AC; 0x1F600] "msg-1" sample_document).
  - repeat constructor; unfold scalar_value; lia.
  - reflexivity.
Defined.

(** C2. When a read fails after some chunks have been delivered,
    [streamResponse] still resolves (it does not reject), with the text
    decoded from those chunks followed by an error annotation, and the
    annotation is never empty. *)
Theorem streamResponse_read_error_resolves
    md_render hljs values error messageId document :
  fst (streamResponse md_render hljs
         (mkResponse (Some (mkStream values (Errored error)))) messageId document)
  = Fulfilled (concat (decoded_chunks new_TextDecoder values) ++ annotation error)
  /\ annotation error <> [].
Proof.
  split; [apply streamResponse_outcome | done].
Qed.

Example read_error_after_one_chunk :
  fst (streamResponse sample_render None
         (mkResponse (Some (mkStream [lit "Hi"]
                              (Errored (mkError (lit "network error"))))))
         "msg-1" sample_document)
  = Fulfilled (lit "Hi" ++ [10; 10]
                 ++ lit "**Error during streaming:** network error").
Proof. reflexivity. Qed.

Example read_error_without_message :
  annotation (mkError [])
  = [10; 10] ++ lit "**Error during streaming:** Connection interrupted.".
Proof. reflexivity. Qed.

(** Two deliveries of the same bytes give the same promise and the same
    document, as long as both or neither delivered a chunk. *)
Lemma streamResponse_same_bytes
    md_render hljs values1 values2 ending messageId document :
  (values1 = [] <-> values2 = []) ->
  concat values1 = concat values2 ->
  streamResponse md_render hljs
    (mkResponse (Some (mkStream values1 ending))) messageId document
  = streamResponse md_render hljs
      (mkResponse (Some (mkStream values2 ending))) messageId document.
Proof.
  intros Hnil Hc.
  rewrite (surjective_pairing (streamResponse _ _ (mkResponse (Some (mkStream values1 _))) _ _)).
  rewrite (surjective_pairing (streamResponse _ _ (mkResponse (Some (mkStream values2 _))) _ _)).
  rewrite !streamResponse_outcome, !streamResponse_document.
  rewrite !concat_decoded_chunks, Hc.
  destruct values1, values2; try done.
  - destruct Hnil as [H _]. by specialize (H eq_refl).
  - destruct Hnil as [_ H]. by specialize (H eq_refl).
Qed.

Lemma serialize_fresh output :
  snd (serialize false output) = utf16_text (strip_bom output).
Proof.
  destruct output as [|item rest]; [done|]. simpl.
  by destruct (item =? 65279).
Qed.

Lemma utf8_encode_text_app a b :
  utf8_encode_text (a ++ b) = utf8_encode_text a ++ utf8_encode_text b.
Proof. apply flat_map_app. Qed.

(** Decoding, from a fresh decoder, encoded text followed by the first
    bytes of one more scalar value: the text comes out and the decoder
    keeps the incomplete sequence. *)
Lemma decode_stream_text_partial scalars cp partial missing :
  Forall scalar_value scalars -> scalar_value cp ->
  utf8_encode cp = partial ++ missing -> partial <> [] -> missing <> [] ->
  pending (fst (decode new_TextDecoder (utf8_encode_text scalars ++ partial) true))
  /\ snd (decode new_TextDecoder (utf8_encode_text scalars ++ partial) true)
     = utf16_text (strip_bom scalars).
Proof.
  intros Hs Hcp Henc Hp Hm.
  destruct (process_incomplete cp partial missing) as (d & Hd & Hn); try done.
  rewrite decode_stream_unfold. unfold pending. simpl.
  rewrite process_queue_app, process_utf8_encode_text by done. simpl.
  rewrite Hd. simpl. by rewrite app_nil_r, serialize_fresh.
Qed.

(** C3. A character whose UTF-8 bytes are split across two consecutive
    chunks is decoded as if its bytes had arrived in one chunk: the two
    deliveries give the same promise and the same document; the
    character appears in the resolved text between the text around it;
    and after the first of the two chunks the decoder holds the
    incomplete sequence instead of resetting. *)
Theorem split_character_decodes_as_whole md_render hljs cp part1 part2 :
  scalar_value cp ->
  utf8_encode cp = part1 ++ part2 ->
  (forall preceding following ending messageId document,
      streamResponse md_render hljs
        (mkResponse (Some (mkStream (preceding ++ [part1; part2] ++ following)
                                    ending))) messageId document
      = streamResponse md_render hljs
          (mkResponse (Some (mkStream (preceding ++ [part1 ++ part2] ++ following)
                                      ending))) messageId document)
  /\ (forall before after messageId document,
         Forall scalar_value before -> Forall scalar_value after ->
         fst (streamResponse md_render hljs
                (mkResponse
                   (Some (mkStream [utf8_encode_text before ++ part1;
                                    part2 ++ utf8_encode_text after] Closed)))
                messageId document)
         = Fulfilled (utf16_text (strip_bom (before ++ cp :: after))))
  /\ (forall before messageId document,
         Forall scalar_value before -> part1 <> [] -> part2 <> [] ->
         let s := on_chunk md_render hljs (start messageId document)
                    (utf8_encode_text before ++ part1) in
         pending (decoder s)
         /\ fullMessage s = utf16_text (strip_bom before)).
Proof.
  intros Hcp Henc. split; [|split].
  - intros. apply streamResponse_same_bytes.
    + by destruct preceding.
    + rewrite !concat_app. simpl. by rewrite !app_nil_r, app_assoc.
  - intros before after messageId document Hb Ha.
    rewrite streamResponse_outcome, app_nil_r, concat_decoded_chunks.
    replace (concat [utf8_encode_text before ++ part1;
                     part2 ++ utf8_encode_text after])
      with (utf8_encode_text (before ++ cp :: after)).
    + rewrite decode_stream_text; [done|].
      apply Forall_app; split; [done|]. by constructor.
    + rewrite utf8_encode_text_app. simpl. rewrite Henc, app_nil_r.
      by rewrite <- !app_assoc.
  - intros before messageId document Hb Hp1 Hp2 s. subst s.
    rewrite on_chunk_decoder, on_chunk_fullMessage. simpl.
    by apply (decode_stream_text_partial before cp part1 part2).
Qed.

Lemma split_character_decodes_as_whole_witness :
  streamResponse sample_render (Some sample_highlightElement)
    (mkResponse (Some (mkStream ([[0x48]] ++ [[0xE2; 0x82]; [0xAC]] ++ [[0x21]])
                                Closed))) "msg-1" sample_document
  = streamResponse sample_render (Some sample_highlightElement)
      (mkResponse (Some (mkStream ([[0x48]] ++ [[0xE2; 0x82] ++ [0xAC]] ++ [[0x21]])
                                  Closed))) "msg-1" sample_document
  /\ fst (streamResponse sample_render (Some sample_highlightElement)
            (mkResponse (Some (mkStream [[0x48; 0xE2; 0x82]; [0xAC; 0x21]] Closed)))
            "msg-1" sample_document)
     = Fulfilled [0x48; 0x20AC; 0x21]
  /\ pending (decoder (on_chunk sample_render (Some sample_highlightElement)
                         (start "msg-1" sample_document) [0x48; 0xE2; 0x82])).
Proof.
  pose proof (split_character_decodes_as_whole
                sample_render (Some sample_highlightElement)
                0x20AC [0xE2; 0x82] [0xAC]) as H.
  destruct H as (Hsame & Htext & Hpending).
  - unfold scalar_value; lia.
  - reflexivity.
  - split; [apply Hsame|]. split.
    + apply (Htext [0x48] [0x21]); repeat constructor; unfold scalar_value; lia.
    + apply (Hpending [0x48] "msg-1"%string sample_document);
        [repeat constructor; unfold scalar_value; lia | discriminate..].
Defined.

Example split_euro_sign :
  fst (streamResponse sample_render None
         (mkResponse (Some (mkStream [[0x48; 0xE2; 0x82]; [0xAC; 0x21]] Closed)))
         "msg-1" sample_document)
  = Fulfilled [0x48; 0x20AC; 0x21].
Proof. reflexivity. Qed.

(** *** What the target shows *)

Section Renders.

Variable md_render : jsstring -> content.
Variable hljs : option (code_element -> code_element).

Local Abbreviation on_chunk := (on_chunk md_render hljs).
Local Abbreviation read_loop := (read_loop md_render hljs).
Local Abbreviation trace := (trace md_render hljs).
Local Abbreviation renders := (renders md_render hljs).
Local Abbreviation rendered := (rendered md_render hljs).

Lemma displayed_on_chunk s value :
  displayed (on_chunk s value)
  = (fun _ => rendered (fullMessage (on_chunk s value))) <$> displayed s.
Proof.
  unfold displayed. rewrite on_chunk_messageElement.
  destruct (messageElement s) as [[[c|]]|]; reflexivity.
Qed.

(** Without a target nothing is rendered. *)
Lemma renders_no_target s values :
  displayed s = None -> renders s values = [].
Proof.
  revert s. induction values as [|v values IH]; intros s Hs; [done|].
  unfold renders. simpl.
  rewrite displayed_on_chunk, Hs. simpl. apply IH.
  by rewrite displayed_on_chunk, Hs.
Qed.

(** With a target, every chunk is followed by one render, of the text
    accumulated at that point. *)
Lemma renders_target s values :
  is_Some (displayed s) ->
  renders s values = (fun st => rendered (fullMessage st)) <$> trace s values.
Proof.
  revert s. induction values as [|v values IH]; intros s [c Hs]; [done|].
  unfold renders. simpl.
  rewrite displayed_on_chunk, Hs. simpl. f_equal. apply IH.
  rewrite displayed_on_chunk, Hs. by eexists.
Qed.

Lemma renders_last s values output :
  last (renders s values) = Some output ->
  values <> [] /\ is_Some (displayed s)
  /\ output = rendered (fullMessage (read_loop s values)).
Proof.
  intros H. destruct (displayed s) as [c|] eqn:Hs.
  - rewrite renders_target in H by (by eexists).
    destruct values as [|v values]; [done|].
    rewrite fmap_last, trace_last in H by done. simpl in H.
    split; [done|]. split; [by eexists|]. by injection H.
  - by rewrite renders_no_target in H.
Qed.

Lemma renders_lookup s values (i : nat) :
  is_Some (displayed s) -> (i < length values)%nat ->
  renders s values !! i
  = Some (rendered (fullMessage (read_loop s (take (S i) values)))).
Proof.
  intros Hs Hi. rewrite renders_target by done.
  by rewrite list_lookup_fmap, trace_lookup.
Qed.

Lemma renders_length s values :
  is_Some (displayed s) -> length (renders s values) = length values.
Proof.
  intros Hs. by rewrite renders_target, length_fmap, trace_length.
Qed.

End Renders.

(** A failed read leaves the document as a close at the same point
    would: the [catch] block does not touch it. *)
Lemma read_error_leaves_document
    md_render hljs values error messageId document :
  snd (streamResponse md_render hljs
         (mkResponse (Some (mkStream values (Errored error)))) messageId document)
  = snd (streamResponse md_render hljs
           (mkResponse (Some (mkStream values Closed))) messageId document).
Proof. by rewrite !streamResponse_document. Qed.

(** C4. The specification asks that, after a failed read, the target
    shows the rendering of the text with the error annotation.  The code
    does not do that: for
    the chunk [Hi] followed by a failed read, the promise resolves with
    the annotated text, while the target still shows the rendering of
    [Hi] alone, which differs from the rendering of the annotated text. *)
Theorem error_annotation_is_not_rendered :
  let error := mkError (lit "network error") in
  let response := mkResponse (Some (mkStream [lit "Hi"] (Errored error))) in
  let result := streamResponse sample_render (Some sample_highlightElement)
                  response "msg-1" sample_document in
  fst result = Fulfilled (lit "Hi" ++ annotation error)
  /\ snd result !! "msg-1"%string
     = Some (mkElement (Some (rendered sample_render
                                (Some sample_highlightElement) (lit "Hi"))))
  /\ rendered sample_render (Some sample_highlightElement) (lit "Hi")
     <> rendered sample_render (Some sample_highlightElement)
          (lit "Hi" ++ annotation error).
Proof.
  split; [reflexivity|]. split; [reflexivity|]. vm_compute. discriminate.
Qed.

(** C5. The rendered output depends on the accumulated text only: when
    two runs on the same target each end with a rendered output and have
    accumulated the same text, the two outputs are identical (they are
    the rendering of that text) and the two documents are identical,
    however many chunks each run took and however it ended. *)
Theorem rendering_is_function_of_text
    md_render hljs messageId document values1 values2 ending1 ending2
    output1 output2 :
  last (renders md_render hljs (start messageId document) values1) = Some output1 ->
  last (renders md_render hljs (start messageId document) values2) = Some output2 ->
  concat (decoded_chunks new_TextDecoder values1)
  = concat (decoded_chunks new_TextDecoder values2) ->
  output1 = output2
  /\ output1 = rendered md_render hljs
                 (concat (decoded_chunks new_TextDecoder values1))
  /\ snd (streamResponse md_render hljs
            (mkResponse (Some (mkStream values1 ending1))) messageId document)
     = snd (streamResponse md_render hljs
              (mkResponse (Some (mkStream values2 ending2))) messageId document).
Proof.
  intros H1 H2 Htext.
  apply renders_last in H1 as (Hne1 & _ & ->).
  apply renders_last in H2 as (Hne2 & _ & ->).
  rewrite !streamResponse_document, !read_loop_fullMessage. simpl.
  rewrite Htext. by destruct values1, values2.
Qed.

Lemma rendering_is_function_of_text_witness :
  snd (streamResponse sample_render (Some sample_highlightElement)
         (mkResponse (Some (mkStream [lit "Hel"; lit "lo **wor"; lit "ld**"]
                                     Closed))) "msg-1" sample_document)
  = snd (streamResponse sample_render (Some sample_highlightElement)
           (mkResponse (Some (mkStream [lit "Hello **world**"]
                                       (Errored (mkError []))))) "msg-1"
           sample_document).
Proof.
  apply (rendering_is_function_of_text
           sample_render (Some sample_highlightElement) "msg-1" sample_document
           [lit "Hel"; lit "lo **wor"; lit "ld**"] [lit "Hello **world**"]
           Closed (Errored (mkError []))
           [Markup (lit "<p>Hello **world**</p>")]
           [Markup (lit "<p>Hello **world**</p>")]); reflexivity.
Defined.

(** The scenario of the specification: three chunks, one text. *)
Example hello_world_in_three_chunks :
  fst (streamResponse sample_render (Some sample_highlightElement)
         (mkResponse (Some (mkStream [lit "Hel"; lit "lo **wor"; lit "ld**"]
                                     Closed))) "msg-1" sample_document)
  = Fulfilled (lit "Hello **world**").
Proof. reflexivity. Qed.

(** A run without any chunk renders nothing and leaves the target as it
    was. *)
Lemma no_chunk_no_render md_render hljs ending messageId document :
  renders md_render hljs (start messageId document) [] = []
  /\ snd (streamResponse md_render hljs
            (mkResponse (Some (mkStream [] ending))) messageId document)
     = document.
Proof. split; [done|]. by rewrite streamResponse_document. Qed.

(** *** The highlight step *)







(** *** The history of the accumulated text *)

Section History.

Variable md_render : jsstring -> content.
Variable hljs : option (code_element -> code_element).

Local Abbreviation read_loop := (read_loop md_render hljs).
Local Abbreviation trace := (trace md_render hljs).

(** The value of [fullMessage] after [i] chunks. *)
Lemma texts_lookup s values (i : nat) :
  (i <= length values)%nat ->
  (fullMessage s :: (fullMessage <$> trace s values)) !! i
  = Some (fullMessage (read_loop s (take i values))).
Proof.
  intros Hi. destruct i as [|i]; [by rewrite take_0|].
  simpl. by rewrite list_lookup_fmap, trace_lookup by lia.
Qed.

Lemma texts_length s values :
  length (fullMessage s :: (fullMessage <$> trace s values))
  = S (length values).
Proof. simpl. by rewrite length_fmap, trace_length. Qed.

(** One more chunk appends to the text. *)
Lemma read_loop_take_S_prefix s values (i : nat) :
  (i < length values)%nat ->
  fullMessage (read_loop s (take i values))
    `prefix_of` fullMessage (read_loop s (take (S i) values)).
Proof.
  intros Hi. destruct (lookup_lt_is_Some_2 values i Hi) as [v Hv].
  rewrite (take_S_r _ _ _ Hv), read_loop_snoc, on_chunk_fullMessage.
  apply prefix_app_r. done.
Qed.

End History.

(** C7. The accumulated text only grows: in the sequence of values that
    [fullMessage] takes during a call (the empty string, the value after
    each chunk, and the value after the [catch] block when a read
    failed), each value is a prefix of the next; the sequence starts
    empty and ends with the text the promise resolves with. *)
Theorem fullMessage_is_append_only md_render hljs stream messageId document :
  let history :=
    fullMessage_history md_render hljs stream (start messageId document) in
  (forall (i : nat) previous next,
      history !! i = Some previous -> history !! S i = Some next ->
      previous `prefix_of` next)
  /\ head history = Some []
  /\ (Fulfilled <$> last history)
     = Some (fst (streamResponse md_render hljs (mkResponse (Some stream))
                    messageId document)).
Proof.
  destruct stream as [values fin]. intros history. subst history.
  unfold fullMessage_history. cbn [chunks ending].
  set (s := start messageId document).
  set (texts := fullMessage s :: (fullMessage <$> trace md_render hljs s values)).
  assert (length texts = S (length values)) as Hlen by apply texts_length.
  assert (forall (i : nat) previous next,
             texts !! i = Some previous -> texts !! S i = Some next ->
             previous `prefix_of` next) as Hchain.
  { intros i previous next Hp Hn.
    assert (S i < length texts)%nat as Hi by (by eapply lookup_lt_Some).
    subst texts. rewrite texts_lookup in Hp, Hn by lia.
    injection Hp as <-. injection Hn as <-.
    apply read_loop_take_S_prefix. lia. }
  assert (last texts = Some (fullMessage (read_loop md_render hljs s values)))
    as Hlast.
  { rewrite last_lookup, Hlen. simpl. subst texts.
    rewrite texts_lookup by lia. by rewrite firstn_all. }
  assert (head texts = Some []) as Hhead by done.
  clearbody texts.
  split; [|split].
  - destruct fin as [|error]; [done|].
    intros i previous next Hp Hn.
    destruct (decide (S i < length texts)%nat) as [Hi|Hi].
    + rewrite lookup_app_l in Hp, Hn by lia. by eapply Hchain.
    + assert (S i = length texts) as Hi'.
      { apply lookup_lt_Some in Hn. rewrite length_app in Hn. simpl in Hn. lia. }
      rewrite lookup_app_l in Hp by lia.
      rewrite lookup_app_r in Hn by lia.
      rewrite Hi', Nat.sub_diag in Hn. injection Hn as <-.
      rewrite last_lookup, Hlen in Hlast. simpl in Hlast.
      replace i with (length values) in Hp by lia.
      rewrite Hlast in Hp. injection Hp as <-.
      by apply prefix_app_r.
  - destruct fin; [done|]. by destruct texts.
  - unfold streamResponse. simpl. fold s.
    destruct fin as [|error].
    + by rewrite Hlast.
    + by rewrite last_snoc.
Qed.

Lemma fullMessage_is_append_only_witness :
  let stream := mkStream [lit "Hel"; lit "lo"]
                  (Errored (mkError (lit "reset"))) in
  lit "Hello" `prefix_of` lit "Hello" ++ annotation (mkError (lit "reset")).
Proof.
  intros stream.
  apply (proj1 (fullMessage_is_append_only sample_render None stream
                  "msg-1" sample_document) 2%nat); reflexivity.
Defined.

(** C8. With a target in place, every chunk is followed by exactly one
    replacement of the target's content, in arrival order: after the
    chunk of index [i] the content is the rendering (Markdown, then the
    highlight step) of the whole text decoded from the chunks up to and
    including that one, whatever the target showed before. *)
Theorem renders_follow_chunk_order
    md_render hljs messageId document el c0 values (i : nat) value :
  document !! messageId = Some el ->
  message_content el = Some c0 ->
  values !! i = Some value ->
  renders md_render hljs (start messageId document) values !! i
  = Some (rendered md_render hljs
            (concat (take (S i) (decoded_chunks new_TextDecoder values))))
  /\ displayed (read_loop md_render hljs (start messageId document)
                  (take (S i) values))
     = Some (rendered md_render hljs
               (concat (take (S i) (decoded_chunks new_TextDecoder values))))
  /\ length (renders md_render hljs (start messageId document) values)
     = length values.
Proof.
  intros Hel Hc Hv.
  assert (is_Some (displayed (start messageId document))) as Hs.
  { unfold displayed, start. simpl. rewrite Hel. by eexists. }
  assert (i < length values)%nat as Hi by (by eapply lookup_lt_Some).
  split; [|split].
  - rewrite renders_lookup by done.
    by rewrite read_loop_take_fullMessage.
  - assert (take (S i) values <> []) as Hne by (by destruct values).
    unfold displayed. rewrite read_loop_messageElement by done.
    rewrite read_loop_take_fullMessage. unfold start. simpl.
    rewrite Hel. simpl. unfold set_content. by rewrite Hc.
  - by apply renders_length.
Qed.

Lemma renders_follow_chunk_order_witness :
  renders sample_render None (start "msg-1" sample_document)
    [lit "Hel"; lit "lo **wor"; lit "ld**"] !! 1%nat
  = Some [Markup (lit "<p>Hello **wor</p>")].
Proof.
  apply (renders_follow_chunk_order sample_render None "msg-1" sample_document
           (mkElement (Some (sample_render []))) (sample_render [])
           [lit "Hel"; lit "lo **wor"; lit "ld**"] 1%nat (lit "lo **wor"));
    reflexivity.
Defined.

(** *** The typing indicator *)

(** No declaration of the script binds the identifier the function
    mentions. *)
Lemma typing_Div_unbound :
  (<["typingDiv"%string := BoundElement TYPING_INDICATOR_ID]> global_scope)
    !! "typing_Div"%string = None.
Proof. vm_compute. reflexivity. Qed.

(** C9. While an element with the typing-indicator id is in the
    document, [removeTypingIndicator] throws a [ReferenceError] on the
    identifier [typing_Div], which nothing declares (the local is
    [typingDiv]), and the document keeps the indicator; when there is no
    such element the call returns normally and changes nothing. *)
Theorem removeTypingIndicator_throws_when_present document :
  (is_Some (document !! TYPING_INDICATOR_ID) ->
     removeTypingIndicator document
     = (Throw "ReferenceError: typing_Div is not defined", document))
  /\ (document !! TYPING_INDICATOR_ID = None ->
        removeTypingIndicator document = (Normal (), document)).
Proof.
  unfold removeTypingIndicator. split.
  - intros [el ->]. unfold call_remove. by rewrite typing_Div_unbound.
  - by intros ->.
Qed.

Lemma removeTypingIndicator_throws_when_present_witness :
  removeTypingIndicator typing_document
  = (Throw "ReferenceError: typing_Div is not defined", typing_document)
  /\ removeTypingIndicator sample_document = (Normal (), sample_document).
Proof.
  split.
  - apply (proj1 (removeTypingIndicator_throws_when_present typing_document)).
    vm_compute. eauto.
  - apply (proj2 (removeTypingIndicator_throws_when_present sample_document)).
    vm_compute. reflexivity.
Defined.

(** *** The end of the stream *)

(** C10. When the stream closes while the decoder holds the first bytes
    of a character whose remaining bytes never arrived, [streamResponse]
    resolves with the characters completed before the close and nothing
    for the trailing bytes: the decoder of the call is still pending at
    the end, and the flushing [decode()] call that would have returned
    U+FFFD for them is never made. *)
Theorem trailing_partial_bytes_are_dropped
    md_render hljs values scalars cp partial missing messageId document :
  Forall scalar_value scalars ->
  scalar_value cp ->
  utf8_encode cp = partial ++ missing ->
  partial <> [] -> missing <> [] ->
  concat values = utf8_encode_text scalars ++ partial ->
  let final := read_loop md_render hljs (start messageId document) values in
  fst (streamResponse md_render hljs
         (mkResponse (Some (mkStream values Closed))) messageId document)
  = Fulfilled (utf16_text (strip_bom scalars))
  /\ pending (decoder final)
  /\ snd (decode (decoder final) [] false) = [0xFFFD].
Proof.
  intros Hs Hcp Henc Hp Hm Hc final.
  assert (values <> []) as Hne.
  { intros ->. simpl in Hc. symmetry in Hc.
    apply app_eq_nil in Hc as [_ ->]. done. }
  destruct (decode_stream_text_partial scalars cp partial missing)
    as [Hpend Htext]; try done.
  assert (decoder final
          = fst (decode new_TextDecoder (utf8_encode_text scalars ++ partial) true))
    as Hdec.
  { subst final. rewrite read_loop_decoder by done. simpl. by rewrite Hc. }
  split; [|split].
  - by rewrite streamResponse_outcome, app_nil_r, concat_decoded_chunks, Hc, Htext.
  - by rewrite Hdec.
  - apply decode_flush_pending; rewrite Hdec; [|done].
    apply resumed_after_decode.
Qed.

Lemma trailing_partial_bytes_are_dropped_witness :
  let values := [[0x48; 0x69]; [0xE2; 0x82]] in
  let final := read_loop sample_render None (start "msg-1" sample_document)
                 values in
  fst (streamResponse sample_render None
         (mkResponse (Some (mkStream values Closed))) "msg-1" sample_document)
  = Fulfilled [0x48; 0x69]
  /\ pending (decoder final)
  /\ snd (decode (decoder final) [] false) = [0xFFFD].
Proof.
  apply (trailing_partial_bytes_are_dropped sample_render None
           [[0x48; 0x69]; [0xE2; 0x82]] [0x48; 0x69] 0x20AC
           [0xE2; 0x82] [0xAC] "msg-1" sample_document).
  - repeat constructor; unfold scalar_value; lia.
  - unfold scalar_value; lia.
  - reflexivity.
  - discriminate.
  - discriminate.
  - reflexivity.
Defined.

(* ===================================================================== *)
(** * Part V: further properties of [streamResponse]                       *)
(* ===================================================================== *)

(** X1. How the bytes of a response are cut into chunks does not matter
    to the outcome: two deliveries of the same bytes, each in at least
    one chunk and ending the same way, give the same promise and leave
    the same document. *)
Theorem chunking_does_not_change_outcome
    md_render hljs values1 values2 ending messageId document :
  values1 <> [] -> values2 <> [] ->
  concat values1 = concat values2 ->
  streamResponse md_render hljs
    (mkResponse (Some (mkStream values1 ending))) messageId document
  = streamResponse md_render hljs
      (mkResponse (Some (mkStream values2 ending))) messageId document.
Proof.
  intros H1 H2 Hc. apply streamResponse_same_bytes; [|done].
  split; intros ->; done.
Qed.

Lemma chunking_does_not_change_outcome_witness :
  streamResponse sample_render (Some sample_highlightElement)
    (mkResponse (Some (mkStream [lit "```le"; lit "t x"; lit " = 1;"]
                                (Errored (mkError (lit "reset"))))))
    "msg-1" sample_document
  = streamResponse sample_render (Some sample_highlightElement)
      (mkResponse (Some (mkStream [lit "```let x = 1;"]
                                  (Errored (mkError (lit "reset"))))))
      "msg-1" sample_document.
Proof.
  apply (chunking_does_not_change_outcome
           sample_render (Some sample_highlightElement)
           [lit "```le"; lit "t x"; lit " = 1;"] [lit "```let x = 1;"]);
    [discriminate | discriminate | reflexivity].
Defined.

(** X2. Without a target (no element with the given id, or an element
    without a content div) the whole text is still read and resolved,
    and the document is left exactly as it was. *)
Theorem missing_target_is_skipped
    md_render hljs values ending messageId document :
  displayed (start messageId document) = None ->
  streamResponse md_render hljs
    (mkResponse (Some (mkStream values ending))) messageId document
  = (Fulfilled
       (concat (decoded_chunks new_TextDecoder values)
          ++ match ending with
             | Closed => []
             | Errored error => annotation error
             end),
     document).
Proof.
  intros Hnone.
  rewrite (surjective_pairing (streamResponse _ _ _ _ _)).
  rewrite streamResponse_outcome, streamResponse_document. f_equal.
  unfold displayed, start in Hnone. simpl in Hnone.
  destruct values as [|v values]; [done|].
  destruct (document !! messageId) as [el|] eqn:Hel; [|done].
  unfold set_content. rewrite Hnone. by apply insert_id.
Qed.

Lemma missing_target_is_skipped_witness :
  streamResponse sample_render None
    (mkResponse (Some (mkStream [lit "Hel"; lit "lo"] Closed)))
    "msg-2" (<["msg-3"%string := mkElement None]> sample_document)
  = (Fulfilled (lit "Hello"),
     <["msg-3"%string := mkElement None]> sample_document)
  /\ streamResponse sample_render None
       (mkResponse (Some (mkStream [lit "Hel"; lit "lo"] Closed)))
       "msg-3" (<["msg-3"%string := mkElement None]> sample_document)
     = (Fulfilled (lit "Hello"),
        <["msg-3"%string := mkElement None]> sample_document).
Proof.
  split.
  - apply (missing_target_is_skipped sample_render None
             [lit "Hel"; lit "lo"] Closed "msg-2"
             (<["msg-3"%string := mkElement None]> sample_document)).
    reflexivity.
  - apply (missing_target_is_skipped sample_render None
             [lit "Hel"; lit "lo"] Closed "msg-3"
             (<["msg-3"%string := mkElement None]> sample_document)).
    reflexivity.
Defined.

(** X3. [streamResponse] touches nothing but its target: every other
    element of the document is as before, and no element is added or
    removed, whatever the response (even one without a body). *)
Theorem streamResponse_only_touches_target
    md_render hljs response messageId document :
  (forall other, other <> messageId ->
     snd (streamResponse md_render hljs response messageId document) !! other
     = document !! other)
  /\ dom (snd (streamResponse md_render hljs response messageId document))
     = dom document.
Proof.
  destruct response as [[[values ending]|]]; [|done].
  rewrite streamResponse_document.
  destruct values as [|v values]; [done|].
  destruct (document !! messageId) as [el|] eqn:Hel; [|done].
  split.
  - intros other Hne. by apply lookup_insert_ne.
  - by apply dom_insert_lookup_L.
Qed.

Lemma streamResponse_only_touches_target_witness :
  snd (streamResponse sample_render None
         (mkResponse (Some (mkStream [lit "Hi"] Closed)))
         "msg-1" typing_document) !! TYPING_INDICATOR_ID
  = typing_document !! TYPING_INDICATOR_ID.
Proof.
  apply (proj1 (streamResponse_only_touches_target sample_render None
                  (mkResponse (Some (mkStream [lit "Hi"] Closed)))
                  "msg-1" typing_document)).
  discriminate.
Defined.

(** X4. When the stream closes after at least one chunk and the target
    has a content div, the target ends up showing the rendering of
    exactly the text the promise resolves with. *)
Theorem closed_stream_shows_resolved_text
    md_render hljs values messageId document el c0 :
  document !! messageId = Some el ->
  message_content el = Some c0 ->
  values <> [] ->
  exists text,
    fst (streamResponse md_render hljs
           (mkResponse (Some (mkStream values Closed))) messageId document)
    = Fulfilled text
    /\ snd (streamResponse md_render hljs
              (mkResponse (Some (mkStream values Closed))) messageId document)
         !! messageId
       = Some (mkElement (Some (rendered md_render hljs text))).
Proof.
  intros Hel Hc Hne.
  exists (concat (decoded_chunks new_TextDecoder values)). split.
  - by rewrite streamResponse_outcome, app_nil_r.
  - rewrite streamResponse_document, Hel.
    destruct values as [|v values]; [done|].
    rewrite lookup_insert_eq. unfold set_content. by rewrite Hc.
Qed.

Lemma closed_stream_shows_resolved_text_witness :
  exists text,
    fst (streamResponse sample_render None
           (mkResponse (Some (mkStream [lit "Hel"; lit "lo"] Closed)))
           "msg-1" sample_document)
    = Fulfilled text
    /\ snd (streamResponse sample_render None
              (mkResponse (Some (mkStream [lit "Hel"; lit "lo"] Closed)))
              "msg-1" sample_document) !! "msg-1"%string
       = Some (mkElement (Some (rendered sample_render None text))).
Proof.
  apply (closed_stream_shows_resolved_text sample_render None
           [lit "Hel"; lit "lo"] "msg-1" sample_document
           (mkElement (Some (sample_render []))) (sample_render []));
    [reflexivity | reflexivity | discriminate].
Defined.

(* ===================================================================== *)
(** * Part VI: the chat transcript                                         *)
(* ===================================================================== *)

Lemma getElementById_cons d container id :
  getElementById (d :: container) id
  = if decide (div_id d = id) then Some d else getElementById container id.
Proof.
  unfold getElementById. simpl. case_decide; [done|].
  by destruct (list_find _ container) as [[i x]|].
Qed.

Lemma getElementById_Some container id d :
  getElementById container id = Some d -> div_id d = id /\ d ∈ container.
Proof.
  induction container as [|x container IH]; [done|].
  rewrite getElementById_cons. case_decide.
  - intros [= ->]. split; [done|]. apply list_elem_of_here.
  - intros H'. destruct (IH H') as [? ?]. split; [done|].
    by apply list_elem_of_further.
Qed.

Lemma getElementById_app container1 container2 id :
  getElementById (container1 ++ container2) id
  = match getElementById container1 id with
    | Some d => Some d
    | None => getElementById container2 id
    end.
Proof.
  induction container1 as [|x container1 IH]; [done|].
  simpl. rewrite !getElementById_cons. by case_decide.
Qed.

Lemma document_of_lookup container id :
  document_of container !! id = element_of <$> getElementById container id.
Proof.
  unfold document_of. induction container as [|d container IH]; [done|].
  rewrite fmap_cons, list_to_map_cons, getElementById_cons. simpl.
  case_decide as Hid.
  - subst. by rewrite lookup_insert_eq.
  - by rewrite lookup_insert_ne.
Qed.

Lemma remove_first_absent id container :
  getElementById container id = None -> remove_first id container = container.
Proof.
  induction container as [|d container IH]; [done|].
  rewrite getElementById_cons. simpl. case_decide; [done|].
  intros H'. by rewrite IH.
Qed.


(** Removing the first indicator from a container that holds one, as
    its last child, leaves none. *)
Lemma remove_first_appended id container d :
  getElementById container id = None -> div_id d = id ->
  remove_first id (container ++ [d]) = container.
Proof.
  intros Hnone Hd. induction container as [|x container IH]; simpl.
  - by case_decide.
  - rewrite getElementById_cons in Hnone. case_decide; [done|].
    by rewrite IH.
Qed.

Lemma insert_before_first_absent id div container :
  getElementById container id = None ->
  insert_before_first id div container = container ++ [div].
Proof.
  induction container as [|d container IH]; [done|].
  rewrite getElementById_cons. simpl. case_decide; [done|].
  intros H'. by rewrite IH.
Qed.

Lemma insert_before_first_present id div before found after :
  getElementById before id = None -> div_id found = id ->
  insert_before_first id div (before ++ found :: after)
  = before ++ div :: found :: after.
Proof.
  intros Hnone Hf. induction before as [|d before IH]; simpl.
  - by case_decide.
  - rewrite getElementById_cons in Hnone. case_decide; [done|].
    by rewrite IH.
Qed.

Lemma message_id_not_indicator now : message_id now <> TYPING_INDICATOR_ID.
Proof. unfold message_id. simpl. discriminate. Qed.


Lemma removeTypingIndicator_absent container :
  getElementById container TYPING_INDICATOR_ID = None ->
  removeTypingIndicator (document_of container)
  = (Normal (), document_of container).
Proof.
  intros H. unfold removeTypingIndicator.
  by rewrite document_of_lookup, H.
Qed.

(** X5. In the order [askQuestion] and [generateSummary] use, the
    typing indicator never reaches [removeTypingIndicator]: shown on a
    transcript without one and followed by a streaming
    [addChatMessage], it is gone again (the message is simply the new
    last child), so the later [removeTypingIndicator] finds nothing and
    returns normally instead of throwing. *)
Theorem streaming_message_removes_indicator
    md_render now timestamp message s images isRawHtml st :
  getElementById (chatContainer st) TYPING_INDICATOR_ID = None ->
  let shown := snd (showTypingIndicator st) in
  let added := addChatMessage md_render now timestamp message s images
                 true isRawHtml shown in
  chatContainer (snd added)
  = chatContainer st
      ++ [mkDiv (fst added) (sender_class s)
            (processedMessage md_render message s isRawHtml) (data <$> images)]
  /\ getElementById (chatContainer (snd added)) TYPING_INDICATOR_ID = None
  /\ removeTypingIndicator (document_of (chatContainer (snd added)))
     = (Normal (), document_of (chatContainer (snd added))).
Proof.
  intros Hnone shown added. subst shown added. simpl.
  rewrite remove_first_appended by done.
  assert (getElementById
            (chatContainer st
               ++ [mkDiv (message_id now) (sender_class s)
                     (processedMessage md_render message s isRawHtml)
                     (data <$> images)]) TYPING_INDICATOR_ID = None) as Hgone.
  { rewrite getElementById_app, Hnone, getElementById_cons.
    destruct (decide _) as [Hid|]; [|done].
    by apply message_id_not_indicator in Hid. }
  split; [done|]. split; [done|]. by apply removeTypingIndicator_absent.
Qed.

Lemma streaming_message_removes_indicator_witness :
  let st := mkTranscript
              [mkDiv "msg-7" "user-message" [Markup (lit "<p>Hi</p>")] []] [] in
  let added := addChatMessage sample_render 8 (lit "t") [] ai [] true false
                 (snd (showTypingIndicator st)) in
  removeTypingIndicator (document_of (chatContainer (snd added)))
  = (Normal (), document_of (chatContainer (snd added))).
Proof.
  intros st added.
  apply (streaming_message_removes_indicator sample_render 8 (lit "t") [] ai []
           false st).
  reflexivity.
Defined.

(** X6. A message that is not streaming is placed just before the
    first typing indicator, so an indicator stays below it; when there
    is no indicator the message becomes the last child. *)
Theorem message_goes_before_indicator
    md_render now timestamp message s images isRawHtml st :
  let added := addChatMessage md_render now timestamp message s images
                 false isRawHtml st in
  let div := mkDiv (fst added) (sender_class s)
               (processedMessage md_render message s isRawHtml)
               (data <$> images) in
  (getElementById (chatContainer st) TYPING_INDICATOR_ID = None ->
     chatContainer (snd added) = chatContainer st ++ [div])
  /\ (forall before indicator after,
         chatContainer st = before ++ indicator :: after ->
         getElementById before TYPING_INDICATOR_ID = None ->
         div_id indicator = TYPING_INDICATOR_ID ->
         chatContainer (snd added) = before ++ div :: indicator :: after).
Proof.
  intros added div. subst added div. simpl. split.
  - intros Hnone. by apply insert_before_first_absent.
  - intros before indicator after -> Hnone Hid.
    by apply insert_before_first_present.
Qed.

Lemma message_goes_before_indicator_witness :
  let st := mkTranscript
              [mkDiv "msg-7" "user-message" [Markup (lit "<p>Hi</p>")] [];
               typing_div] [] in
  chatContainer
    (snd (addChatMessage sample_render 8 (lit "t") (lit "ok") ai [] false false st))
  = [mkDiv "msg-7" "user-message" [Markup (lit "<p>Hi</p>")] [];
     mkDiv "msg-8" "ai-message" [Markup (lit "<p>ok</p>")] [];
     typing_div].
Proof.
  intros st.
  apply (proj2 (message_goes_before_indicator sample_render 8 (lit "t")
                  (lit "ok") ai [] false st)
           [mkDiv "msg-7" "user-message" [Markup (lit "<p>Hi</p>")] []]
           typing_div []); reflexivity.
Defined.




Lemma update_first_split id c before target after :
  getElementById before id = None -> div_id target = id ->
  update_first id c (before ++ target :: after)
  = before ++ set_div_content target c :: after.
Proof.
  intros Hnone Ht. induction before as [|d before IH]; simpl.
  - by rewrite decide_True.
  - rewrite getElementById_cons in Hnone.
    destruct (decide (div_id d = id)); [done|]. by rewrite IH.
Qed.

Lemma getElementById_split id before target after :
  getElementById before id = None -> div_id target = id ->
  getElementById (before ++ target :: after) id = Some target.
Proof.
  intros Hnone Ht.
  by rewrite getElementById_app, Hnone, getElementById_cons, decide_True.
Qed.

(** What [streamResponse] does to a container whose first element with
    the id is known. *)
Lemma streamResponse_in_split
    md_render hljs values ending messageId before target after :
  getElementById before messageId = None ->
  div_id target = messageId ->
  values <> [] ->
  streamResponse_in md_render hljs
    (mkResponse (Some (mkStream values ending))) messageId
    (before ++ target :: after)
  = (Fulfilled
       (concat (decoded_chunks new_TextDecoder values)
          ++ match ending with
             | Closed => []
             | Errored error => annotation error
             end),
     before
       ++ set_div_content target
            (rendered md_render hljs
               (concat (decoded_chunks new_TextDecoder values)))
       :: after).
Proof.
  intros Hnone Ht Hne. unfold streamResponse_in.
  rewrite (surjective_pairing (streamResponse _ _ _ _ _)).
  rewrite streamResponse_outcome, streamResponse_document.
  rewrite document_of_lookup, getElementById_split by done. simpl.
  destruct values as [|v values]; [done|].
  rewrite lookup_insert_eq. simpl. by rewrite update_first_split.
Qed.

(** X8. [streamResponse] renders into the first element that carries
    the id it was given: that element's content becomes the rendering of
    the decoded text, and every other child of the container, including
    a later one with the same id, stays as it was. *)
Theorem stream_renders_into_first_match
    md_render hljs values ending messageId before target after :
  getElementById before messageId = None ->
  div_id target = messageId ->
  values <> [] ->
  streamResponse_in md_render hljs
    (mkResponse (Some (mkStream values ending))) messageId
    (before ++ target :: after)
  = (Fulfilled
       (concat (decoded_chunks new_TextDecoder values)
          ++ match ending with
             | Closed => []
             | Errored error => annotation error
             end),
     before
       ++ set_div_content target
            (rendered md_render hljs
               (concat (decoded_chunks new_TextDecoder values)))
       :: after).
Proof. apply streamResponse_in_split. Qed.

Lemma stream_renders_into_first_match_witness :
  streamResponse_in sample_render None
    (mkResponse (Some (mkStream [lit "Be"; lit "cause"] Closed))) "msg-5"
    ([] ++ mkDiv "msg-5" "user-message" [Markup (lit "<p>Why?</p>")] []
        :: [mkDiv "msg-5" "ai-message" [Markup (lit "<p></p>")] []])
  = (Fulfilled (lit "Because"),
     [mkDiv "msg-5" "user-message" [Markup (lit "<p>Because</p>")] [];
      mkDiv "msg-5" "ai-message" [Markup (lit "<p></p>")] []]).
Proof.
  apply (stream_renders_into_first_match sample_render None
           [lit "Be"; lit "cause"] Closed "msg-5" []
           (mkDiv "msg-5" "user-message" [Markup (lit "<p>Why?</p>")] [])
           [mkDiv "msg-5" "ai-message" [Markup (lit "<p></p>")] []]);
    [reflexivity | reflexivity | discriminate].
Defined.

(* ===================================================================== *)
(** * Part VII: [askQuestion] and [generateSummary]                        *)
(* ===================================================================== *)

Lemma nothing_to_send docs :
  imagesToSend docs = [] /\ textDocumentsContent docs = []
  <-> Forall unusable docs.
Proof.
  unfold imagesToSend, textDocumentsContent.
  induction docs as [|doc docs IH]; simpl.
  - split; [constructor | done].
  - rewrite Forall_cons. unfold unusable at 1.
    destruct (is_image doc), (has_imageBase64 doc); simpl;
      try (split; [intros [? ?]; discriminate | intros [[? ?] _]; discriminate]).
    rewrite IH. tauto.
Qed.

(** X9. [askQuestion] answers with the warning, and does nothing else
    (no request, the counter and the input box untouched), exactly when
    the trimmed question is empty and every uploaded document is an
    image without data: such uploads count for nothing. *)
Theorem askQuestion_warns_without_material
    md_render now1 timestamp1 now2 timestamp2 a :
  trim (questionInput a) = [] /\ Forall unusable (uploadedDocuments a)
  <-> askQuestion_begin md_render now1 timestamp1 now2 timestamp2 a
      = Warned (with_chat a
                  (snd (addChatMessage md_render now1 timestamp1 ask_warning
                          ai [] false false (chat a)))).
Proof.
  rewrite <- nothing_to_send. unfold askQuestion_begin.
  destruct (trim (questionInput a)) as [|c question];
    destruct (imagesToSend (uploadedDocuments a)) as [|img images];
    destruct (textDocumentsContent (uploadedDocuments a)) as [|doc documents];
    simpl; split; try done; intros (? & ? & ?); done.
Qed.

Lemma askQuestion_warns_without_material_witness :
  let a := mkApp [mkDoc 1 (lit "photo") (lit "image/png") [] None] [] [] [] true
             None (mkTranscript [] []) 0 (lit "  ") [] in
  askQuestion_begin sample_render 5 (lit "t") 6 (lit "t") a
  = Warned (with_chat a
              (snd (addChatMessage sample_render 5 (lit "t") ask_warning
                      ai [] false false (chat a)))).
Proof.
  intros a.
  apply (proj1 (askQuestion_warns_without_material sample_render
                  5 (lit "t") 6 (lit "t") a)).
  split; [reflexivity|]. repeat constructor.
Defined.

(** X10. An accepted question is counted once, the input box is
    emptied, and the history gains the question and an empty entry for
    the answer; the request carries that history, so the server is sent
    the question twice (as [question] and as the last but one history
    entry) together with the empty entry. *)
Theorem askQuestion_sends_history_with_placeholder
    md_render now1 timestamp1 now2 timestamp2 a messageId body a' :
  askQuestion_begin md_render now1 timestamp1 now2 timestamp2 a
  = Awaiting messageId body a' ->
  messageId = message_id now2
  /\ questionCount a' = questionCount a + 1
  /\ questionCountSpan a' = number_text (questionCount a + 1)
  /\ questionInput a' = []
  /\ uploadedDocuments a' = uploadedDocuments a
  /\ req_question body = Some (trim (questionInput a))
  /\ req_chatHistory body = Some (chatHistory (chat a'))
  /\ chatHistory (chat a')
     = chatHistory (chat a)
         ++ [mkEntry user (trim (questionInput a)) timestamp1
               (map (fun img => mkImage (mimeType img) (data_url img))
                    (imagesToSend (uploadedDocuments a)));
             mkEntry ai [] timestamp2 []].
Proof.
  unfold askQuestion_begin.
  destruct (trim (questionInput a)) as [|c question];
    destruct (imagesToSend (uploadedDocuments a)) as [|img images];
    destruct (textDocumentsContent (uploadedDocuments a)) as [|doc documents];
    simpl; intros [= <- <- <-] || discriminate; simpl;
    by rewrite <- app_assoc.
Qed.

Lemma askQuestion_sends_history_with_placeholder_witness :
  let a := mkApp [] [] [] [] true None (mkTranscript [] []) 2 (lit " Why? ") [] in
  exists messageId body a',
    askQuestion_begin sample_render 5 (lit "t1") 6 (lit "t2") a
    = Awaiting messageId body a'
    /\ questionCount a' = 3
    /\ questionCountSpan a' = lit "3"
    /\ req_chatHistory body
       = Some [mkEntry user (lit "Why?") (lit "t1") [];
               mkEntry ai [] (lit "t2") []].
Proof.
  intros a. eexists _, _, _. split; [reflexivity|].
  pose proof (askQuestion_sends_history_with_placeholder sample_render
                5 (lit "t1") 6 (lit "t2") a _ _ _ eq_refl) as H.
  destruct H as (_ & Hcount & Hspan & _ & _ & _ & Hreq & Hhist).
  split; [exact Hcount|]. split; [exact Hspan|].
  rewrite Hreq, Hhist. reflexivity.
Defined.

(** *** The typing indicator across a call *)

Lemma no_indicator_snoc container d :
  getElementById container TYPING_INDICATOR_ID = None ->
  div_id d <> TYPING_INDICATOR_ID ->
  getElementById (container ++ [d]) TYPING_INDICATOR_ID = None.
Proof.
  intros Hnone Hd.
  by rewrite getElementById_app, Hnone, getElementById_cons, decide_False.
Qed.

Lemma plain_message_no_indicator
    md_render now timestamp message s images isRawHtml st :
  getElementById (chatContainer st) TYPING_INDICATOR_ID = None ->
  getElementById
    (chatContainer (snd (addChatMessage md_render now timestamp message s images
                           false isRawHtml st))) TYPING_INDICATOR_ID = None.
Proof.
  intros Hnone. simpl. rewrite insert_before_first_absent by done.
  apply no_indicator_snoc; [done|]. apply message_id_not_indicator.
Qed.

Lemma shown_then_streaming_no_indicator
    md_render now timestamp message s images isRawHtml st :
  getElementById (chatContainer st) TYPING_INDICATOR_ID = None ->
  getElementById
    (chatContainer
       (snd (addChatMessage md_render now timestamp message s images
               true isRawHtml (snd (showTypingIndicator st)))))
    TYPING_INDICATOR_ID = None.
Proof.
  intros Hnone. simpl. rewrite remove_first_appended by done.
  apply no_indicator_snoc; [done|]. apply message_id_not_indicator.
Qed.



(** The question is assumed to create no element with an id: an element
    inside it that carried the indicator's id would be the one the
    streaming [addChatMessage] removes, and the indicator would stay. *)
Lemma askQuestion_begin_no_indicator
    md_render now1 timestamp1 now2 timestamp2 a :
  no_indicator a ->
  question_carries_no_id a = true ->
  no_indicator (sent_app (askQuestion_begin md_render now1 timestamp1
                            now2 timestamp2 a)).
Proof.
  unfold no_indicator. intros Hnone _. unfold askQuestion_begin.
  destruct (trim (questionInput a)) as [|c question];
    destruct (imagesToSend (uploadedDocuments a)) as [|img images];
    destruct (textDocumentsContent (uploadedDocuments a)) as [|doc documents].
  1: by apply plain_message_no_indicator.
  all: apply shown_then_streaming_no_indicator;
    by apply plain_message_no_indicator.
Qed.

(** X11. Neither [askQuestion] nor [generateSummary] leaves a typing
    indicator behind when it suspends or returns: on a page without an
    indicator, the page after the first part of either call (warning
    given, or request sent) has none either.  For [askQuestion] this is
    for a question that creates no element with an id when it is shown
    (no [<] in its text, no double quote in an image source): the
    question is put into the page unescaped, and an element in it with
    the indicator's id would be removed in the indicator's place. *)
Theorem no_indicator_when_request_is_sent
    md_render now1 timestamp1 now2 timestamp2 a :
  no_indicator a ->
  (question_carries_no_id a = true ->
   no_indicator (sent_app (askQuestion_begin md_render now1 timestamp1
                             now2 timestamp2 a)))
  /\ no_indicator (sent_app (generateSummary_begin md_render now1 timestamp1
                               now2 timestamp2 a)).
Proof.
  intros Hnone. split.
  - by apply askQuestion_begin_no_indicator.
  - unfold no_indicator in *. unfold generateSummary_begin.
    destruct (textDocumentsContent (uploadedDocuments a)) as [|doc documents];
      destruct (imagesToSend (uploadedDocuments a)) as [|img images].
    1: by apply plain_message_no_indicator.
    all: apply shown_then_streaming_no_indicator;
      by apply plain_message_no_indicator.
Qed.

Lemma no_indicator_when_request_is_sent_witness :
  let a := mkApp [] [] [] [] true None (mkTranscript [] []) 0 (lit "Why?") [] in
  no_indicator (sent_app (askQuestion_begin sample_render 5 (lit "t") 6 (lit "t") a)).
Proof.
  intros a.
  apply (proj1 (no_indicator_when_request_is_sent sample_render
                  5 (lit "t") 6 (lit "t") a eq_refl) eq_refl).
Defined.

(** *** After [fetch] has settled *)

Lemma removeTypingIndicator_present container :
  is_Some (getElementById container TYPING_INDICATOR_ID) ->
  removeTypingIndicator (document_of container)
  = (Throw "ReferenceError: typing_Div is not defined", document_of container).
Proof.
  intros [d Hd]. unfold removeTypingIndicator.
  rewrite document_of_lookup, Hd.
  change (element_of <$> Some d) with (Some (element_of d)).
  cbv beta iota. unfold call_remove. rewrite typing_Div_unbound.
  reflexivity.
Qed.

Lemma update_first_same id container c :
  document_of container !! id = Some (mkElement (Some c)) ->
  update_first id c container = container.
Proof.
  rewrite document_of_lookup.
  induction container as [|d container IH]; [done|].
  rewrite getElementById_cons. simpl. destruct (decide (div_id d = id)).
  - intros [= <-]. by destruct d.
  - intros H. by rewrite IH.
Qed.

Lemma streamResponse_in_null_body md_render hljs messageId container :
  streamResponse_in md_render hljs (mkResponse None) messageId container
  = (Rejected body_is_null, container).
Proof.
  unfold streamResponse_in. simpl.
  destruct (document_of container !! messageId) as [[[c|]]|] eqn:E; try done.
  by rewrite update_first_same.
Qed.





(** X13. With a typing indicator in the page when [fetch] settles, the
    second part of [askQuestion] and of [generateSummary] rejects,
    whatever [fetch] settled with: [removeTypingIndicator] throws in the
    [try] block or, at the latest, in the [catch] block, so the promise
    is rejected with its [ReferenceError] and the page is left as it
    was (nothing rendered, no failure text, the history entry still
    empty). *)
Theorem reply_rejects_with_indicator md_render hljs result messageId a :
  is_Some (getElementById (chatContainer (chat a)) TYPING_INDICATOR_ID) ->
  askQuestion_end md_render hljs result messageId a
  = (Rejected typing_Div_error, a)
  /\ generateSummary_end md_render hljs result messageId a
     = (Rejected typing_Div_error, a).
Proof.
  intros Hsome.
  assert (forall shown recorded,
             reply_end md_render hljs shown recorded result messageId a
             = (Rejected typing_Div_error, a)) as H.
  { intros shown recorded. unfold reply_end.
    assert (exists error,
               reply_try md_render hljs result messageId (chatContainer (chat a))
               = (inl error, chatContainer (chat a))) as [error ->].
    { unfold reply_try. destruct result as [error|res]; [by eexists|].
      destruct (ok res).
      - rewrite removeTypingIndicator_present by done. by eexists.
      - destruct (text res); by eexists. }
    rewrite removeTypingIndicator_present by done.
    by destruct a as [? ? ? ? ? ? [? ?] ? ? ?]. }
  split; apply H.
Qed.

Lemma reply_rejects_with_indicator_witness :
  let a := mkApp [] [] [] [] true None
             (mkTranscript [mkDiv "msg-6" "ai-message" [] []; typing_div]
                           [mkEntry ai [] (lit "t") []]) 1 [] (lit "1") in
  askQuestion_end sample_render None
    (Fetched (mkHttp true 200 (Fulfilled [])
                (mkResponse (Some (mkStream [lit "Hi"] Closed))))) "msg-6" a
  = (Rejected typing_Div_error, a).
Proof.
  intros a.
  apply (proj1 (reply_rejects_with_indicator sample_render None
                  (Fetched (mkHttp true 200 (Fulfilled [])
                              (mkResponse (Some (mkStream [lit "Hi"] Closed)))))
                  "msg-6" a (ltac:(vm_compute; eauto)))).
Defined.

Lemma reply_end_failure md_render hljs shown recorded result messageId a error :
  no_indicator a ->
  reply_try md_render hljs result messageId (chatContainer (chat a))
  = (inl error, chatContainer (chat a)) ->
  reply_end md_render hljs shown recorded result messageId a
  = (Fulfilled (),
     with_chat a
       (mkTranscript
          (update_first messageId
             [Markup (shown ++ or_else (message error)
                                 (lit "Please try again or check server."))]
             (chatContainer (chat a)))
          (fill_first_placeholder
             (lit "AI Error: " ++ or_else (message error) recorded)
             (chatHistory (chat a))))).
Proof.
  unfold no_indicator. intros Hnone Htry. unfold reply_end. rewrite Htry.
  by rewrite removeTypingIndicator_absent.
Qed.

(** X14. A failure before any streaming ends [askQuestion] normally and
    is both shown and recorded: for a rejected [fetch], for a response
    whose status is not ok (the error then reads
    [HTTP error! Status: ..., Message: ...]) and for a response without
    a body (the error is then the [TypeError] of reading [getReader] of
    [null], with the message the engine gives it, which is not empty),
    the first element carrying the message id shows the failure text
    and the earliest empty assistant entry of the history becomes
    [AI Error: ...]. *)
Theorem failure_is_shown_and_recorded md_render hljs messageId a :
  no_indicator a ->
  let failed error :=
    (Fulfilled (),
     with_chat a
       (mkTranscript
          (update_first messageId
             [Markup ((cross_emoji ++ lit " AI failed to respond. ")
                        ++ or_else (message error)
                             (lit "Please try again or check server."))]
             (chatContainer (chat a)))
          (fill_first_placeholder
             (lit "AI Error: "
                ++ or_else (message error) (lit "Failed to respond"))
             (chatHistory (chat a))))) in
  (forall error,
      askQuestion_end md_render hljs (FetchFailed error) messageId a
      = failed error)
  /\ (forall res errorText,
         ok res = false -> text res = Fulfilled errorText ->
         askQuestion_end md_render hljs (Fetched res) messageId a
         = failed (http_error res errorText))
  /\ (forall res,
         ok res = true -> streamed res = mkResponse None ->
         exists error,
           message error <> []
           /\ askQuestion_end md_render hljs (Fetched res) messageId a
              = failed error).
Proof.
  intros Hnone failed. subst failed. unfold askQuestion_end.
  split; [|split].
  - intros error. by apply reply_end_failure.
  - intros res errorText Hok Htext. apply reply_end_failure; [done|].
    unfold reply_try. by rewrite Hok, Htext.
  - intros res Hok Hbody. exists body_is_null. split; [done|].
    apply reply_end_failure; [done|].
    unfold reply_try. rewrite Hok, removeTypingIndicator_absent by done.
    by rewrite Hbody, streamResponse_in_null_body.
Qed.

Lemma failure_is_shown_and_recorded_witness :
  let a := mkApp [] [] [] [] true None
             (mkTranscript [mkDiv "msg-6" "ai-message" [] []]
                           [mkEntry user (lit "Why?") (lit "t") [];
                            mkEntry ai [] (lit "t") []]) 1 [] (lit "1") in
  snd (askQuestion_end sample_render None
         (Fetched (mkHttp false 503 (Fulfilled (lit "busy")) (mkResponse None)))
         "msg-6" a)
  = mkApp [] [] [] [] true None
      (mkTranscript
         [mkDiv "msg-6" "ai-message"
            [Markup (cross_emoji ++ lit " AI failed to respond. "
                       ++ lit "HTTP error! Status: 503, Message: busy")] []]
         [mkEntry user (lit "Why?") (lit "t") [];
          mkEntry ai (lit "AI Error: HTTP error! Status: 503, Message: busy")
            (lit "t") []]) 1 [] (lit "1").
Proof.
  intros a.
  pose proof (failure_is_shown_and_recorded sample_render None "msg-6" a eq_refl)
    as (_ & Hhttp & _).
  rewrite (Hhttp (mkHttp false 503 (Fulfilled (lit "busy")) (mkResponse None))
             (lit "busy") eq_refl eq_refl).
  reflexivity.
Defined.

(** *** The history entry of the answer *)

Lemma fill_first_placeholder_split text earlier placeholder later :
  Forall (fun entry => is_placeholder entry = false) earlier ->
  is_placeholder placeholder = true ->
  fill_first_placeholder text (earlier ++ placeholder :: later)
  = earlier
      ++ mkEntry (entry_sender placeholder) text (entry_timestamp placeholder)
           (entry_images placeholder)
      :: later.
Proof.
  intros Hearlier Hp. induction Hearlier as [|entry earlier He _ IH]; simpl.
  - by rewrite Hp.
  - by rewrite He, IH.
Qed.

Lemma fill_first_placeholder_none text history :
  Forall (fun entry => is_placeholder entry = false) history ->
  fill_first_placeholder text history = history.
Proof.
  induction 1 as [|entry history He _ IH]; simpl; [done|].
  by rewrite He, IH.
Qed.

Lemma fill_first_placeholder_empty history :
  fill_first_placeholder [] history = history.
Proof.
  induction history as [|entry history IH]; simpl; [done|].
  destruct (is_placeholder entry) eqn:He; [|by rewrite IH].
  destruct entry as [[] [|c m] ts imgs]; try discriminate. done.
Qed.

(** X15. The answer goes to the earliest empty assistant entry of the
    history, which need not be the entry created for it: entries before
    and after that one are untouched; a history without such an entry
    is left as it is; and an empty answer changes nothing, so its entry
    stays empty and takes the next answer instead. *)
Theorem answer_fills_earliest_empty_entry text :
  (forall earlier placeholder later,
      Forall (fun entry => is_placeholder entry = false) earlier ->
      is_placeholder placeholder = true ->
      fill_first_placeholder text (earlier ++ placeholder :: later)
      = earlier
          ++ mkEntry ai text (entry_timestamp placeholder)
               (entry_images placeholder)
          :: later)
  /\ (forall history,
         Forall (fun entry => is_placeholder entry = false) history ->
         fill_first_placeholder text history = history)
  /\ (forall earlier placeholder asked own,
         Forall (fun entry => is_placeholder entry = false) earlier ->
         is_placeholder placeholder = true ->
         fill_first_placeholder text
           (fill_first_placeholder [] (earlier ++ [placeholder])
              ++ [asked; own])
         = earlier
             ++ [mkEntry ai text (entry_timestamp placeholder)
                   (entry_images placeholder);
                 asked; own]).
Proof.
  split; [|split].
  - intros earlier placeholder later He Hp.
    rewrite fill_first_placeholder_split by done.
    by destruct placeholder as [[] [|c m] ts imgs].
  - apply fill_first_placeholder_none.
  - intros earlier placeholder asked own He Hp.
    rewrite fill_first_placeholder_empty, <- app_assoc. simpl.
    rewrite fill_first_placeholder_split by done.
    by destruct placeholder as [[] [|c m] ts imgs].
Qed.

Lemma answer_fills_earliest_empty_entry_witness :
  fill_first_placeholder (lit "Because")
    (fill_first_placeholder []
       ([mkEntry user (lit "Who?") (lit "t1") []]
          ++ [mkEntry ai [] (lit "t2") []])
       ++ [mkEntry user (lit "Why?") (lit "t3") [];
           mkEntry ai [] (lit "t4") []])
  = [mkEntry user (lit "Who?") (lit "t1") []]
      ++ [mkEntry ai (lit "Because") (lit "t2") [];
          mkEntry user (lit "Why?") (lit "t3") [];
          mkEntry ai [] (lit "t4") []].
Proof.
  apply (proj2 (proj2 (answer_fills_earliest_empty_entry (lit "Because")))
           [mkEntry user (lit "Who?") (lit "t1") []]
           (mkEntry ai [] (lit "t2") [])
           (mkEntry user (lit "Why?") (lit "t3") [])
           (mkEntry ai [] (lit "t4") [])).
  - repeat constructor.
  - reflexivity.
Defined.

Lemma reply_end_streamed
    md_render hljs shown recorded res values ending messageId a
    before target after :
  no_indicator a ->
  ok res = true ->
  streamed res = mkResponse (Some (mkStream values ending)) ->
  values <> [] ->
  chatContainer (chat a) = before ++ target :: after ->
  getElementById before messageId = None ->
  div_id target = messageId ->
  reply_end md_render hljs shown recorded (Fetched res) messageId a
  = (Fulfilled (),
     with_chat a
       (mkTranscript
          (before
             ++ set_div_content target
                  (rendered md_render hljs
                     (concat (decoded_chunks new_TextDecoder values)))
             :: after)
          (fill_first_placeholder
             (concat (decoded_chunks new_TextDecoder values)
                ++ match ending with
                   | Closed => []
                   | Errored error => annotation error
                   end)
             (chatHistory (chat a))))).
Proof.
  unfold no_indicator. intros Hnone Hok Hbody Hne Hc Hb Ht.
  unfold reply_end, reply_try.
  rewrite Hok, removeTypingIndicator_absent, Hbody by done.
  rewrite Hc. by rewrite streamResponse_in_split.
Qed.

(** X16. A stream that breaks after some chunks is recorded with its
    error annotation but not shown with it: [askQuestion] ends
    normally, the message shows the rendering of the text received
    before the failure, and the earliest empty assistant entry of the
    history (which later requests send along) holds that text followed
    by the annotation. *)
Theorem broken_stream_is_recorded_with_annotation
    md_render hljs res values error messageId a
    before target after earlier placeholder later :
  no_indicator a ->
  ok res = true ->
  streamed res = mkResponse (Some (mkStream values (Errored error))) ->
  values <> [] ->
  chatContainer (chat a) = before ++ target :: after ->
  getElementById before messageId = None ->
  div_id target = messageId ->
  chatHistory (chat a) = earlier ++ placeholder :: later ->
  Forall (fun entry => is_placeholder entry = false) earlier ->
  is_placeholder placeholder = true ->
  let received := concat (decoded_chunks new_TextDecoder values) in
  askQuestion_end md_render hljs (Fetched res) messageId a
  = (Fulfilled (),
     with_chat a
       (mkTranscript
          (before ++ set_div_content target (rendered md_render hljs received)
             :: after)
          (earlier
             ++ mkEntry ai (received ++ annotation error)
                  (entry_timestamp placeholder) (entry_images placeholder)
             :: later))).
Proof.
  intros Hnone Hok Hbody Hne Hc Hb Ht Hh He Hp received. subst received.
  unfold askQuestion_end.
  rewrite (reply_end_streamed _ _ _ _ res values (Errored error) messageId a
             before target after) by done.
  rewrite Hh, fill_first_placeholder_split by done.
  by destruct placeholder as [[] [|c m] ts imgs].
Qed.

Lemma broken_stream_is_recorded_with_annotation_witness :
  let a := mkApp [] [] [] [] true None
             (mkTranscript [mkDiv "msg-6" "ai-message" [] []]
                           [mkEntry user (lit "Why?") (lit "t") [];
                            mkEntry ai [] (lit "t") []]) 1 [] (lit "1") in
  snd (askQuestion_end sample_render None
         (Fetched (mkHttp true 200 (Fulfilled [])
                     (mkResponse (Some (mkStream [lit "Hi"]
                                          (Errored (mkError (lit "reset"))))))))
         "msg-6" a)
  = mkApp [] [] [] [] true None
      (mkTranscript
         [mkDiv "msg-6" "ai-message" [Markup (lit "<p>Hi</p>")] []]
         [mkEntry user (lit "Why?") (lit "t") [];
          mkEntry ai (lit "Hi" ++ [10; 10]
                        ++ lit "**Error during streaming:** reset")
            (lit "t") []]) 1 [] (lit "1").
Proof.
  intros a.
  rewrite (broken_stream_is_recorded_with_annotation sample_render None
             (mkHttp true 200 (Fulfilled [])
                (mkResponse (Some (mkStream [lit "Hi"]
                                     (Errored (mkError (lit "reset")))))))
             [lit "Hi"] (mkError (lit "reset")) "msg-6" a
             [] (mkDiv "msg-6" "ai-message" [] []) []
             [mkEntry user (lit "Why?") (lit "t") []]
             (mkEntry ai [] (lit "t") []) []);
    try reflexivity.
  - discriminate.
  - repeat constructor.
Defined.

Lemma askQuestion_begin_container
    md_render now1 timestamp1 now2 timestamp2 a messageId body a' :
  no_indicator a ->
  question_carries_no_id a = true ->
  askQuestion_begin md_render now1 timestamp1 now2 timestamp2 a
  = Awaiting messageId body a' ->
  messageId = message_id now2
  /\ chatHistory (chat a')
     = chatHistory (chat a)
         ++ [mkEntry user (trim (questionInput a)) timestamp1
               (map (fun img => mkImage (mimeType img) (data_url img))
                    (imagesToSend (uploadedDocuments a)));
             mkEntry ai [] timestamp2 []]
  /\ chatContainer (chat a')
     = chatContainer (chat a)
         ++ [mkDiv (message_id now1) "user-message"
               [Markup (lit "<p>" ++ trim (questionInput a) ++ lit "</p>")]
               (map data_url (imagesToSend (uploadedDocuments a)));
             mkDiv (message_id now2) "ai-message" (md_render []) []].
Proof.
  unfold no_indicator. intros Hnone _. unfold askQuestion_begin.
  assert (forall div,
             div_id div <> TYPING_INDICATOR_ID ->
             remove_first TYPING_INDICATOR_ID
               (insert_before_first TYPING_INDICATOR_ID div
                  (chatContainer (chat a)) ++ [typing_div])
             = chatContainer (chat a) ++ [div]) as Hc.
  { intros div Hdiv. rewrite insert_before_first_absent by done.
    apply remove_first_appended; [|done]. by apply no_indicator_snoc. }
  destruct (trim (questionInput a)) as [|c question];
    destruct (imagesToSend (uploadedDocuments a)) as [|img images];
    destruct (textDocumentsContent (uploadedDocuments a)) as [|doc documents];
    simpl; intros [= <- <- <-] || discriminate; simpl;
    rewrite Hc by apply message_id_not_indicator;
    rewrite <- !app_assoc; simpl;
    rewrite ?list_fmap_compose, ?map_map; done.
Qed.

(** X17. When the question and the empty streaming message are created
    within the same millisecond, the answer is rendered into the
    question's bubble: after [askQuestion] has run on a page that had
    no element with that id, for a question that creates no element
    with an id when it is shown (no [<] in its text, no double quote in
    an image source), the user's message shows the rendering of the
    answer and the assistant's message still shows the rendering of the
    empty text. *)
Theorem answer_overwrites_question_within_a_millisecond
    md_render hljs now timestamp1 timestamp2 a messageId body a'
    res values ending :
  no_indicator a ->
  getElementById (chatContainer (chat a)) (message_id now) = None ->
  question_carries_no_id a = true ->
  askQuestion_begin md_render now timestamp1 now timestamp2 a
  = Awaiting messageId body a' ->
  ok res = true ->
  streamed res = mkResponse (Some (mkStream values ending)) ->
  values <> [] ->
  chatContainer
    (chat (snd (askQuestion_end md_render hljs (Fetched res) messageId a')))
  = chatContainer (chat a)
      ++ [mkDiv (message_id now) "user-message"
            (rendered md_render hljs
               (concat (decoded_chunks new_TextDecoder values)))
            (map data_url (imagesToSend (uploadedDocuments a)));
          mkDiv (message_id now) "ai-message" (md_render []) []].
Proof.
  intros Hnone Hfresh Hplain Hbegin Hok Hbody Hne.
  destruct (askQuestion_begin_container _ _ _ _ _ _ _ _ _ Hnone Hplain Hbegin)
    as (-> & _ & Hc).
  assert (no_indicator a') as Hnone'.
  { pose proof (askQuestion_begin_no_indicator md_render now timestamp1
                  now timestamp2 a Hnone Hplain) as H.
    by rewrite Hbegin in H. }
  unfold askQuestion_end.
  rewrite (reply_end_streamed _ _ _ _ res values ending (message_id now) a'
             (chatContainer (chat a))
             (mkDiv (message_id now) "user-message"
                [Markup (lit "<p>" ++ trim (questionInput a) ++ lit "</p>")]
                (map data_url (imagesToSend (uploadedDocuments a))))
             [mkDiv (message_id now) "ai-message" (md_render []) []]);
    try done.
Qed.

Lemma answer_overwrites_question_within_a_millisecond_witness :
  let a := mkApp [] [] [] [] true None (mkTranscript [] []) 0 (lit "Why?") [] in
  let sent := askQuestion_begin sample_render 5 (lit "t1") 5 (lit "t2") a in
  chatContainer
    (chat (snd (askQuestion_end sample_render None
                  (Fetched (mkHttp true 200 (Fulfilled [])
                              (mkResponse (Some (mkStream [lit "Because"]
                                                   Closed)))))
                  "msg-5" (sent_app sent))))
  = [mkDiv "msg-5" "user-message" [Markup (lit "<p>Because</p>")] [];
     mkDiv "msg-5" "ai-message" [Markup (lit "<p></p>")] []].
Proof.
  intros a sent.
  apply (answer_overwrites_question_within_a_millisecond sample_render None
           5 (lit "t1") (lit "t2") a "msg-5"
           (mkRequest (Some (lit "Why?")) [] [] None
              (Some [mkEntry user (lit "Why?") (lit "t1") [];
                     mkEntry ai [] (lit "t2") []]) true)
           (sent_app sent)
           (mkHttp true 200 (Fulfilled [])
              (mkResponse (Some (mkStream [lit "Because"] Closed))))
           [lit "Because"] Closed); try reflexivity.
  discriminate.
Defined.

(* ===================================================================== *)
(** * Part VIII: the uploaded documents                                    *)
(* ===================================================================== *)





Lemma nil_length_decide (docs : list uploaded_doc) :
  bool_decide (length docs = 0%nat) = bool_decide (docs = []).
Proof. by destruct docs. Qed.





(** X20. An accepted upload with a fresh id keeps the page consistent:
    the document, its item in both file lists and the counter are added
    together.  The stored image data is never the empty string: an
    empty value from the server is stored as missing. *)
Theorem upload_keeps_files_in_sync
    md_render id fileName fileType extractedText image now timestamp a :
  files_in_sync a ->
  id ∉ doc_id <$> uploadedDocuments a ->
  let uploaded := upload_accepted md_render id fileName fileType extractedText
                    image now timestamp a in
  files_in_sync (snd uploaded)
  /\ uploadedDocuments (snd uploaded) = uploadedDocuments a ++ [fst uploaded]
  /\ imageBase64 (fst uploaded) <> Some [].
Proof.
  intros (Hnodup & Hup & Hlib & _ & _) Hnotin uploaded. subst uploaded.
  unfold files_in_sync. simpl.
  rewrite !fmap_app, Hup, Hlib, nil_length_decide. simpl.
  repeat split; try done.
  - apply NoDup_app. split; [done|]. split; [|apply NoDup_singleton].
    intros x Hx. rewrite list_elem_of_singleton. by intros ->.
  - by destruct image as [[|c s]|].
Qed.

Lemma upload_keeps_files_in_sync_witness :
  let a := mkApp [] [] [] (lit "0") true None (mkTranscript [] []) 0 [] [] in
  files_in_sync
    (snd (upload_accepted sample_render 1 (lit "notes.pdf")
            (lit "application/pdf") (Some (lit "text")) (Some []) 5 (lit "t") a)).
Proof.
  intros a.
  apply (upload_keeps_files_in_sync sample_render 1 (lit "notes.pdf")
           (lit "application/pdf") (Some (lit "text")) (Some []) 5 (lit "t") a).
  - repeat split; try reflexivity. apply NoDup_nil_2.
  - apply not_elem_of_nil.
Defined.

(** [clearAllFiles] brings any page, consistent or not, to the
    consistent page without documents: both file lists are empty, the
    counter shows 0 and the library note is shown. *)
Lemma clearAllFiles_resets_files md_render now timestamp a :
  let a' := clearAllFiles md_render now timestamp a in
  files_in_sync a'
  /\ uploadedDocuments a' = []
  /\ uploadedFilesList a' = [] /\ libraryFilesList a' = []
  /\ docCountSpan a' = lit "0" /\ libraryStats_shown a' = true.
Proof.
  intros a'. subst a'. unfold files_in_sync. simpl.
  repeat split; try done. apply NoDup_nil_2.
Qed.

(* ===================================================================== *)
(** * Part IX: answers that find no place                                  *)
(* ===================================================================== *)

Lemma streamResponse_in_no_target md_render hljs values ending messageId container :
  getElementById container messageId = None ->
  streamResponse_in md_render hljs
    (mkResponse (Some (mkStream values ending))) messageId container
  = (Fulfilled
       (concat (decoded_chunks new_TextDecoder values)
          ++ match ending with
             | Closed => []
             | Errored error => annotation error
             end),
     container).
Proof.
  intros Hnone. unfold streamResponse_in.
  rewrite (surjective_pairing (streamResponse _ _ _ _ _)).
  rewrite streamResponse_outcome, streamResponse_document.
  rewrite document_of_lookup, Hnone. simpl.
  destruct values; by rewrite document_of_lookup, Hnone.
Qed.

(** X21. An answer that arrives after its message and its history
    entry are gone (the chat was cleared in the meantime) is dropped
    without a trace: the stream is read to its end, the promise is
    fulfilled, and the page is exactly as before. *)
Theorem answer_without_target_is_dropped
    md_render hljs res values ending messageId a :
  no_indicator a ->
  getElementById (chatContainer (chat a)) messageId = None ->
  Forall (fun entry => is_placeholder entry = false) (chatHistory (chat a)) ->
  ok res = true ->
  streamed res = mkResponse (Some (mkStream values ending)) ->
  askQuestion_end md_render hljs (Fetched res) messageId a = (Fulfilled (), a)
  /\ generateSummary_end md_render hljs (Fetched res) messageId a
     = (Fulfilled (), a).
Proof.
  unfold no_indicator. intros Hnone Hgone Hhist Hok Hbody.
  assert (forall shown recorded,
             reply_end md_render hljs shown recorded (Fetched res) messageId a
             = (Fulfilled (), a)) as H.
  { intros shown recorded. unfold reply_end, reply_try.
    rewrite Hok, removeTypingIndicator_absent, Hbody by done.
    rewrite streamResponse_in_no_target by done.
    rewrite fill_first_placeholder_none by done.
    by destruct a as [? ? ? ? ? ? [? ?] ? ? ?]. }
  split; apply H.
Qed.

Lemma answer_without_target_is_dropped_witness :
  let a := mkApp [] [] [] [] true None (mkTranscript [] []) 0 [] (lit "0") in
  askQuestion_end sample_render None
    (Fetched (mkHttp true 200 (Fulfilled [])
                (mkResponse (Some (mkStream [lit "Because"] Closed)))))
    "msg-5" a
  = (Fulfilled (), a).
Proof.
  intros a.
  apply (proj1 (answer_without_target_is_dropped sample_render None
                  (mkHttp true 200 (Fulfilled [])
                     (mkResponse (Some (mkStream [lit "Because"] Closed))))
                  [lit "Because"] Closed "msg-5" a
                  eq_refl eq_refl ltac:(constructor) eq_refl eq_refl)).
Defined.

(* ===================================================================== *)
(** * Part X: the built-in resources                                       *)
(* ===================================================================== *)

Lemma keeps_loaded_refl cache : keeps_loaded cache cache.
Proof. by intros key. Qed.

Lemma keeps_loaded_is_loaded before after key :
  keeps_loaded before after -> loaded before key = true ->
  loaded after key = true.
Proof. intros H Hl. unfold loaded. rewrite (H key Hl). exact Hl. Qed.

Lemma keeps_loaded_trans c1 c2 c3 :
  keeps_loaded c1 c2 -> keeps_loaded c2 c3 -> keeps_loaded c1 c3.
Proof.
  intros H12 H23 key Hl. rewrite <- (H12 key Hl). apply H23.
  by eapply keeps_loaded_is_loaded.
Qed.

Lemma simulateResourceLoad_loaded cache dept category topic :
  loaded (<[resource_key dept category topic
            := simulateResourceLoad dept category topic]> cache)
         (resource_key dept category topic) = true.
Proof. unfold loaded. by rewrite lookup_insert_eq. Qed.

Lemma show_topic_spec dept category cache html topic :
  keeps_loaded cache (fst (show_topic dept category (cache, html) topic))
  /\ loaded (fst (show_topic dept category (cache, html) topic))
            (resource_key dept category topic) = true
  /\ snd (show_topic dept category (cache, html) topic)
     = html ++ topic_html dept category topic.
Proof.
  unfold show_topic.
  destruct (loaded cache (resource_key dept category topic)) eqn:Hl;
    cbn [fst snd].
  - split; [apply keeps_loaded_refl|done].
  - split; [|split; [apply simulateResourceLoad_loaded|done]].
    intros key Hkey. apply lookup_insert_ne. congruence.
Qed.

Lemma show_topics_spec dept category topics cache html :
  let shown := fold_left (show_topic dept category) topics (cache, html) in
  keeps_loaded cache (fst shown)
  /\ (forall topic, topic ∈ topics ->
        loaded (fst shown) (resource_key dept category topic) = true)
  /\ snd shown = html ++ concat (topic_html dept category <$> topics).
Proof.
  revert cache html. induction topics as [|topic topics IH]; intros cache html.
  - cbn. split; [apply keeps_loaded_refl|]. split; [|by rewrite app_nil_r].
    intros topic H. by apply elem_of_nil in H.
  - cbn [fold_left].
    destruct (show_topic_spec dept category cache html topic)
      as (Hkeep & Hload & Hhtml).
    destruct (show_topic dept category (cache, html) topic)
      as [cache1 html1] eqn:E.
    cbn [fst snd] in Hkeep, Hload, Hhtml.
    destruct (IH cache1 html1) as (Hkeep' & Hload' & Hhtml').
    cbv zeta. split; [by eapply keeps_loaded_trans|]. split.
    + intros t Ht. apply elem_of_cons in Ht as [->|Ht]; [|by apply Hload'].
      by eapply keeps_loaded_is_loaded.
    + rewrite Hhtml', Hhtml, fmap_cons. simpl. by rewrite <- app_assoc.
Qed.

Lemma show_topics_loaded dept category topics cache html :
  (forall topic, topic ∈ topics ->
     loaded cache (resource_key dept category topic) = true) ->
  fst (fold_left (show_topic dept category) topics (cache, html)) = cache.
Proof.
  revert html. induction topics as [|topic topics IH]; intros html H; [done|].
  cbn [fold_left]. unfold show_topic at 2.
  rewrite H by apply list_elem_of_here. apply IH.
  intros t Ht. apply H. by apply list_elem_of_further.
Qed.

Lemma show_category_unfold dept cache html category topics :
  show_category dept (cache, html) (category, topics)
  = (fst (fold_left (show_topic dept category) topics
            (cache, html ++ lit "<h4>" ++ category ++ lit "</h4><ul class="
                      ++ quote ++ lit "resource-list" ++ quote ++ lit ">")),
     snd (fold_left (show_topic dept category) topics
            (cache, html ++ lit "<h4>" ++ category ++ lit "</h4><ul class="
                      ++ quote ++ lit "resource-list" ++ quote ++ lit ">"))
       ++ lit "</ul>").
Proof.
  unfold show_category.
  by destruct (fold_left (show_topic dept category) topics _).
Qed.

Lemma show_categories_spec dept categories cache html :
  let shown := fold_left (show_category dept) categories (cache, html) in
  keeps_loaded cache (fst shown)
  /\ (forall category topics topic,
        (category, topics) ∈ categories -> topic ∈ topics ->
        loaded (fst shown) (resource_key dept category topic) = true)
  /\ snd shown = html ++ concat (category_html dept <$> categories).
Proof.
  revert cache html.
  induction categories as [|[category topics] categories IH]; intros cache html.
  - cbn. split; [apply keeps_loaded_refl|]. split; [|by rewrite app_nil_r].
    intros category topics topic H. by apply elem_of_nil in H.
  - cbn [fold_left]. rewrite show_category_unfold.
    destruct (show_topics_spec dept category topics cache
                (html ++ lit "<h4>" ++ category ++ lit "</h4><ul class="
                   ++ quote ++ lit "resource-list" ++ quote ++ lit ">"))
      as (Hkeep & Hload & Hhtml).
    destruct (fold_left (show_topic dept category) topics _)
      as [cache1 html1] eqn:E.
    cbn [fst snd] in *.
    destruct (IH cache1 (html1 ++ lit "</ul>")) as (Hkeep' & Hload' & Hhtml').
    cbv zeta. split; [by eapply keeps_loaded_trans|]. split.
    + intros c ts t Hc Ht. apply elem_of_cons in Hc as [[= -> ->]|Hc].
      * apply (keeps_loaded_is_loaded cache1); [done|by apply Hload].
      * exact (Hload' c ts t Hc Ht).
    + rewrite Hhtml', Hhtml, fmap_cons. cbn [concat].
      unfold category_html. cbn [fst snd]. by rewrite <- !app_assoc.
Qed.

Lemma show_categories_loaded dept categories cache html :
  (forall category topics topic,
      (category, topics) ∈ categories -> topic ∈ topics ->
      loaded cache (resource_key dept category topic) = true) ->
  fst (fold_left (show_category dept) categories (cache, html)) = cache.
Proof.
  revert html.
  induction categories as [|[category topics] categories IH]; intros html H;
    [done|].
  cbn [fold_left]. rewrite show_category_unfold.
  rewrite show_topics_loaded.
  - apply IH. intros c ts t Hc Hin. eapply H; [|done].
    by apply list_elem_of_further.
  - intros t Hin. eapply H; [|done]. apply list_elem_of_here.
Qed.

(** X22. Showing a department loads each of its topics at most once:
    afterwards every topic of the department is in the cache, and an
    entry that was already loaded, for this or any other department, is
    the entry it was (it is neither fetched again nor overwritten). *)
Theorem resources_are_loaded_once table dept categories builtInResources :
  property table dept = Some categories ->
  keeps_loaded builtInResources
    (fst (display_resources table dept builtInResources))
  /\ (forall category topics topic,
         (category, topics) ∈ categories -> topic ∈ topics ->
         loaded (fst (display_resources table dept builtInResources))
                (resource_key dept category topic) = true).
Proof.
  intros Hdept. unfold display_resources. rewrite Hdept.
  destruct (show_categories_spec dept categories builtInResources [])
    as (Hkeep & Hload & _).
  by split.
Qed.

Lemma resources_are_loaded_once_witness :
  loaded (fst (displayBuiltInResources (lit "general") ∅))
         (resource_key (lit "general") (lit "Study Skills") (lit "Note-Taking"))
  = true.
Proof.
  apply (proj2 (resources_are_loaded_once departmentResources (lit "general")
                  [(lit "Study Skills",
                    [lit "Time Management"; lit "Note-Taking";
                     lit "Exam Preparation"; lit "Critical Thinking"])]
                  ∅ eq_refl)
           (lit "Study Skills")
           [lit "Time Management"; lit "Note-Taking";
            lit "Exam Preparation"; lit "Critical Thinking"]).
  - apply list_elem_of_here.
  - apply list_elem_of_further, list_elem_of_here.
Defined.

(** X23. Showing a department a second time changes nothing: the cache
    after the second call is the cache after the first, and the panel
    gets the same markup, which lists the categories and topics in the
    order of the table whatever the cache holds. *)
Theorem showing_resources_again_changes_nothing table dept builtInResources :
  let first := display_resources table dept builtInResources in
  display_resources table dept (fst first) = first
  /\ snd first
     = match property table dept with
       | Some categories => concat (category_html dept <$> categories)
       | None => lit "No resources available."
       end.
Proof.
  intros first. subst first. unfold display_resources.
  destruct (property table dept) as [categories|] eqn:Hdept; [|done].
  destruct (show_categories_spec dept categories builtInResources [])
    as (_ & Hload & Hhtml).
  destruct (show_categories_spec dept categories
              (fst (fold_left (show_category dept) categories
                      (builtInResources, []))) [])
    as (_ & _ & Hhtml').
  split; [|done].
  rewrite (surjective_pairing (fold_left _ categories (fst _, []))).
  rewrite (surjective_pairing (fold_left _ categories (builtInResources, [])))
    at 3.
  f_equal; [|by rewrite Hhtml, Hhtml'].
  by apply show_categories_loaded.
Qed.

(* ===================================================================== *)
(** * Part XI: [generateQuestionsForDocument]                              *)
(* ===================================================================== *)

Lemma remove_lastChild_snoc container d :
  remove_lastChild (container ++ [d]) = Some container.
Proof.
  unfold remove_lastChild. rewrite removelast_last.
  by destruct container.
Qed.

Lemma generateQuestions_end_success md_render res questions now timestamp a
    rest lastChild :
  questions_ok res = true ->
  questions_json res = Fulfilled (Data questions) ->
  chatContainer (chat a) = rest ++ [lastChild] ->
  generateQuestions_end md_render (QuestionsFetched res) now timestamp a
  = (Fulfilled (),
     with_chat a
       (snd (addChatMessage md_render now timestamp
               (fst (questions_message questions)) ai [] false
               (snd (questions_message questions))
               (mkTranscript rest (chatHistory (chat a)))))).
Proof.
  intros Hok Hjson Hc. unfold generateQuestions_end, questions_try.
  rewrite Hok, Hjson, Hc, remove_lastChild_snoc.
  by destruct questions as [[|q questions]|].
Qed.

(** X24. [generateQuestionsForDocument] removes whatever is the last
    child of the chat when the answer arrives, and only from the page:
    run without anything in between, its announcement is replaced on the
    page by the message with the questions (or by the note that there
    are none), while [chatHistory] keeps the announcement and gains the
    new message. *)
Theorem questions_replace_announcement_on_page_only
    md_render now1 timestamp1 now2 timestamp2 documentText a res questions :
  no_indicator a ->
  questions_ok res = true ->
  questions_json res = Fulfilled (Data questions) ->
  let announced :=
    snd (generateQuestions_begin md_render now1 timestamp1 documentText a) in
  let done :=
    generateQuestions_end md_render (QuestionsFetched res) now2 timestamp2
      announced in
  let message := fst (questions_message questions) in
  let raw := snd (questions_message questions) in
  fst done = Fulfilled ()
  /\ chatContainer (chat (snd done))
     = chatContainer (chat a)
         ++ [mkDiv (message_id now2) "ai-message"
               (processedMessage md_render message ai raw) []]
  /\ chatHistory (chat (snd done))
     = chatHistory (chat a)
         ++ [mkEntry ai (bulb_emoji ++ lit " Generating quick questions...")
               timestamp1 [];
             mkEntry ai message timestamp2 []].
Proof.
  unfold no_indicator. intros Hnone Hok Hjson.
  rewrite (generateQuestions_end_success _ _ questions _ _ _
             (chatContainer (chat a))
             (mkDiv (message_id now1) "ai-message"
                (md_render (bulb_emoji ++ lit " Generating quick questions..."))
                [])); try done.
  - cbn [fst snd]. split; [done|].
    unfold with_chat, addChatMessage. cbn [chat chatContainer chatHistory snd].
    rewrite insert_before_first_absent by done.
    split; [done|]. cbn [generateQuestions_begin snd].
    unfold with_chat, addChatMessage. cbn [chat chatContainer chatHistory snd].
    by rewrite <- app_assoc.
  - cbn [generateQuestions_begin snd]. unfold with_chat, addChatMessage.
    cbn [chat chatContainer chatHistory snd].
    by rewrite insert_before_first_absent.
Qed.

Lemma questions_replace_announcement_on_page_only_witness :
  let a := mkApp [] [] [] [] true None (mkTranscript [] []) 0 [] [] in
  let announced :=
    snd (generateQuestions_begin sample_render 5 (lit "t1") (lit "text") a) in
  let done :=
    generateQuestions_end sample_render
      (QuestionsFetched
         (mkQuestions true 200 (Fulfilled [])
            (Fulfilled (Data (Some [lit "Why?"]))))) 6 (lit "t2") announced in
  chatContainer (chat (snd done))
  = [mkDiv "msg-6" "ai-message" [Markup (questionsHtml [lit "Why?"])] []]
  /\ chatHistory (chat (snd done))
     = [mkEntry ai (bulb_emoji ++ lit " Generating quick questions...")
          (lit "t1") [];
        mkEntry ai (questionsHtml [lit "Why?"]) (lit "t2") []].
Proof.
  intros a announced done.
  pose proof (questions_replace_announcement_on_page_only sample_render
                5 (lit "t1") 6 (lit "t2") (lit "text") a
                (mkQuestions true 200 (Fulfilled [])
                   (Fulfilled (Data (Some [lit "Why?"]))))
                (Some [lit "Why?"]) eq_refl eq_refl eq_refl) as (_ & Hc & Hh).
  split; [exact Hc | exact Hh].
Defined.

(** X25. When something was added to the chat after the announcement
    and before the answer, that later child is the one removed: it
    disappears from the page and the announcement
    [Generating quick questions...] stays, followed by the new message. *)
Theorem questions_remove_a_later_message
    md_render res questions now timestamp a before announcement later :
  getElementById (before ++ [announcement]) TYPING_INDICATOR_ID = None ->
  questions_ok res = true ->
  questions_json res = Fulfilled (Data questions) ->
  chatContainer (chat a) = before ++ [announcement; later] ->
  chatContainer
    (chat (snd (generateQuestions_end md_render (QuestionsFetched res)
                  now timestamp a)))
  = before
      ++ [announcement;
          mkDiv (message_id now) "ai-message"
            (processedMessage md_render (fst (questions_message questions)) ai
               (snd (questions_message questions))) []].
Proof.
  intros Hnone Hok Hjson Hc.
  rewrite (generateQuestions_end_success _ _ questions _ _ _
             (before ++ [announcement]) later); try done.
  - unfold with_chat, addChatMessage. cbn [chat chatContainer snd].
    rewrite insert_before_first_absent by done. by rewrite <- app_assoc.
  - by rewrite Hc, <- app_assoc.
Qed.

Lemma questions_remove_a_later_message_witness :
  let a := mkApp [] [] [] [] true None
             (mkTranscript
                [mkDiv "msg-5" "ai-message" [Markup (lit "wait")] [];
                 mkDiv "msg-6" "user-message" [Markup (lit "<p>Why?</p>")] []]
                []) 0 [] [] in
  chatContainer
    (chat (snd (generateQuestions_end sample_render
                  (QuestionsFetched
                     (mkQuestions true 200 (Fulfilled []) (Fulfilled (Data None))))
                  7 (lit "t") a)))
  = [mkDiv "msg-5" "ai-message" [Markup (lit "wait")] [];
     mkDiv "msg-7" "ai-message"
       [Markup (lit "<p>No quick questions could be generated for this document.</p>")]
       []].
Proof.
  intros a.
  apply (questions_remove_a_later_message sample_render
           (mkQuestions true 200 (Fulfilled []) (Fulfilled (Data None))) None
           7 (lit "t") a []
           (mkDiv "msg-5" "ai-message" [Markup (lit "wait")] [])
           (mkDiv "msg-6" "user-message" [Markup (lit "<p>Why?</p>")] []));
    reflexivity.
Defined.

(** X26. An answer whose JSON is [null] costs the chat two children:
    the last child is removed before the [questions] of the answer are
    read, reading them throws, and the [catch] block removes the last
    child again before it adds the failure message. *)
Theorem null_answer_removes_two_children
    md_render res now timestamp a rest child1 child2 :
  getElementById rest TYPING_INDICATOR_ID = None ->
  questions_ok res = true ->
  questions_json res = Fulfilled NullData ->
  chatContainer (chat a) = rest ++ [child1; child2] ->
  let done := generateQuestions_end md_render (QuestionsFetched res)
                now timestamp a in
  fst done = Fulfilled ()
  /\ exists failure,
       chatContainer (chat (snd done)) = rest ++ [failure]
       /\ div_id failure = message_id now
       /\ length (chatHistory (chat (snd done)))
          = S (length (chatHistory (chat a))).
Proof.
  intros Hnone Hok Hjson Hc. unfold generateQuestions_end, questions_try.
  rewrite Hok, Hjson, Hc.
  replace (rest ++ [child1; child2]) with ((rest ++ [child1]) ++ [child2])
    by (by rewrite <- app_assoc).
  rewrite remove_lastChild_snoc. cbn [chatContainer].
  rewrite remove_lastChild_snoc. cbn [fst snd]. split; [done|].
  eexists. unfold with_chat, addChatMessage. cbn [chat chatContainer chatHistory snd].
  rewrite insert_before_first_absent by done.
  split; [reflexivity|]. split; [done|].
  rewrite length_app. simpl. lia.
Qed.

Lemma null_answer_removes_two_children_witness :
  let a := mkApp [] [] [] [] true None
             (mkTranscript
                [mkDiv "msg-4" "user-message" [Markup (lit "<p>Why?</p>")] [];
                 mkDiv "msg-5" "ai-message" [Markup (lit "wait")] []]
                []) 0 [] [] in
  fst (generateQuestions_end sample_render
         (QuestionsFetched
            (mkQuestions true 200 (Fulfilled []) (Fulfilled NullData)))
         7 (lit "t") a)
  = Fulfilled ().
Proof.
  intros a.
  apply (null_answer_removes_two_children sample_render
           (mkQuestions true 200 (Fulfilled []) (Fulfilled NullData))
           7 (lit "t") a []
           (mkDiv "msg-4" "user-message" [Markup (lit "<p>Why?</p>")] [])
           (mkDiv "msg-5" "ai-message" [Markup (lit "wait")] []));
    reflexivity.
Defined.

(* ===================================================================== *)
(** * Part XII: [generateSummary]                                          *)
(* ===================================================================== *)

Lemma summaryMessage_specific images documents :
  images <> [] \/ documents <> [] ->
  summaryMessage images documents <> page_emoji ++ lit " Summarizing...".
Proof.
  intros H Heq. destruct images, documents; vm_compute in Heq;
    try discriminate. by destruct H.
Qed.

(** X27. [generateSummary] gives its warning, and sends nothing,
    exactly when every uploaded document is an image without data.
    Otherwise it announces what it summarises (documents and images,
    images, or documents; the unspecific text it starts from is never
    shown), and its request carries the text of the documents and the
    images as data URLs, without a question and without the history. *)
Theorem generateSummary_announces_material
    md_render now1 timestamp1 now2 timestamp2 a :
  (Forall unusable (uploadedDocuments a)
   <-> generateSummary_begin md_render now1 timestamp1 now2 timestamp2 a
       = Warned (with_chat a
                   (snd (addChatMessage md_render now1 timestamp1
                           summary_warning ai [] false false (chat a)))))
  /\ (forall messageId body a',
         generateSummary_begin md_render now1 timestamp1 now2 timestamp2 a
         = Awaiting messageId body a' ->
         req_question body = None
         /\ req_chatHistory body = None
         /\ req_documents body = textDocumentsContent (uploadedDocuments a)
         /\ req_images body = map data_url (imagesToSend (uploadedDocuments a))
         /\ chatHistory (chat a')
            = chatHistory (chat a)
                ++ [mkEntry ai
                      (summaryMessage (imagesToSend (uploadedDocuments a))
                         (textDocumentsContent (uploadedDocuments a)))
                      timestamp1 [];
                    mkEntry ai [] timestamp2 []]
         /\ summaryMessage (imagesToSend (uploadedDocuments a))
              (textDocumentsContent (uploadedDocuments a))
            <> page_emoji ++ lit " Summarizing...").
Proof.
  rewrite <- nothing_to_send. unfold generateSummary_begin. split.
  - destruct (textDocumentsContent (uploadedDocuments a)) as [|doc documents];
      destruct (imagesToSend (uploadedDocuments a)) as [|img images];
      simpl; split; try done; intros (? & ?); done.
  - intros messageId body a'.
    pose proof (summaryMessage_specific (imagesToSend (uploadedDocuments a))
                  (textDocumentsContent (uploadedDocuments a))) as Hspecific.
    destruct (textDocumentsContent (uploadedDocuments a)) as [|doc documents];
      destruct (imagesToSend (uploadedDocuments a)) as [|img images];
      cbn [addChatMessage showTypingIndicator snd fst chatHistory chatContainer];
      intros [= <- <- <-] || discriminate;
      cbn [req_question req_chatHistory req_documents req_images
           with_chat chat chatHistory];
      rewrite <- app_assoc; repeat split; try done;
      apply Hspecific; (by left) || (by right).
Qed.

Lemma generateSummary_announces_material_witness :
  let a := mkApp [mkDoc 1 (lit "notes") (lit "text/plain") (lit "abc") None]
             [] [] [] false None (mkTranscript [] []) 0 [] [] in
  exists messageId body a',
    generateSummary_begin sample_render 5 (lit "t1") 6 (lit "t2") a
    = Awaiting messageId body a'
    /\ req_documents body = [lit "abc"]
    /\ req_chatHistory body = None.
Proof.
  intros a. eexists _, _, _. split; [reflexivity|].
  pose proof (proj2 (generateSummary_announces_material sample_render
                       5 (lit "t1") 6 (lit "t2") a) _ _ _ eq_refl)
    as (_ & Hhist & Hdocs & _).
  split; [exact Hdocs | exact Hhist].
Defined.
